(** * Session lifecycle of the ThreatLens-AI repository analyser ([app.py])

    [app.py] is a Streamlit script: the framework executes it from top to
    bottom on every browser interaction, with a fresh module namespace, the
    per-session dictionary [st.session_state] and the process-wide resource
    cache being the only things that survive from one execution to the next.
    The script talks to the OpenAI Assistants API through [client].

    The page set-up (lines 30-43), the construction of [client] (lines
    48-51) and the widget declarations (lines 107-115) have no part in the
    session lifecycle: the widgets appear through the values they return.

    The development embeds the script as a function of the widget values of
    one execution, in a state-and-exception monad that also records the
    observable effects (provider requests, page elements, pushes to the
    streaming placeholder, prints) in the order they happen.  The provider
    is a parameter: any state machine answering the requests. *)

From stdpp Require Import base option list strings gmap fin_maps.
From Stdlib Require Import Strings.Byte Strings.Ascii.

#[local] Set Warnings "-clear-no-such-hyp".

Local Open Scope string_scope.
Local Open Scope list_scope.

(** ** Python values held in [st.session_state] *)

Abbreviation bytes := (list byte).

Inductive Val :=
| VNone
| VBool (b : bool)
| VStr (s : string)
| VBytes (b : bytes).

(** Python truth value, as used by [if x:]. *)
Definition truthy (v : Val) : bool :=
  match v with
  | VNone => false
  | VBool b => b
  | VStr s => negb (String.eqb s EmptyString)
  | VBytes b => match b with [] => false | _ :: _ => true end
  end.

Definition is_None (v : Val) : bool :=
  match v with VNone => true | _ => false end.

(** [x or (empty string)] and [if x:] for a value of type [str | None]. *)
Definition str_truthy (o : option string) : bool :=
  match o with
  | Some s => negb (String.eqb s EmptyString)
  | None => false
  end.

Definition or_empty (o : option string) : string :=
  match o with
  | Some s => s
  | None => EmptyString
  end.

(** ** Constants of the script (lines 17-25) *)

Definition DEFAULT_PROMPT : string :=
  "Please process this Project repository (Medical-Diagnosis-main.zip) " +:+
  "and generate report in md and download the file.".
Definition ASSISTANT_NAME : string := "THREATLENS-AI-Agent".
Definition MODEL_NAME : string := "gpt-4.1".
Definition TEMP : QArith_base.Q := QArith_base.Qmake 2 10.

Definition INSTRUCTIONS : string := "
You are **THREATLENS-AI-Agent**, 
an expert Generative-AI assistant that automates threat-modeling and security assessment for healthcare software projects.
and write and a detailed generate a Medical-Diagnosis-Project-Report.md file.
**Mission**
• Traverse an uploaded project repository (source code, configs, docs) with Code Interpreter.  
• Produce a comprehensive security analysis that includes:  
    – STRIDE-aligned threat list  
    – Attack trees (text/tree notation)  
    – DREAD risk scores (0–10 scale for Damage, Reproducibility, Exploitability, Affected Users, Discoverability)  
    – Prioritised mitigation recommendations mapped to HIPAA, NIST SP 800-30 & SSDF controls  
    – Gherkin-style security test scenarios suitable for BDD

**Operating rules**
1. **Repository traversal:** Use Code Interpreter to read files, parse architecture diagrams/code comments, and identify trust boundaries.  
2. **Reasoning:** Think step-by-step, citing file paths/line numbers that anchor each finding.  
3. **Output format:**  
    - Start with a high-level summary table (component ⇢ main STRIDE category ⇢ highest DREAD score).  
    - Follow with detailed sections: threats, attack trees, DREAD table, mitigations, Gherkin tests.  
    - Use fenced ```markdown``` blocks for any code, tree diagrams, or tables.  
4. **Healthcare context:** Call out HIPAA Privacy/Security Rule impacts and PHI exposure points.  
5. **Assumptions & gaps:** If information is missing, state assumptions explicitly and proceed.  
6. **Tone:** Professional, concise, actionable—avoid jargon the reader can’t act on.  
7. **Compliance reminders:** Recommend early remediation in the SDLC and reference OWASP SAMM / NIST SSDF where relevant.".

Definition REPORT_NAME : string := "Medical-Diagnosis-Project-Report.md".

Definition SESSION_KEYS : list string :=
  ["thread_id"; "file_id"; "run_finished"; "report_bytes"; "report_name"].

(** ** Objects exchanged with the provider *)

Record AssistantConfig := {
  cfg_name : string;
  cfg_model : string;
  cfg_temperature : QArith_base.Q;
  cfg_tools : list string;
  cfg_instructions : string
}.

Record Assistant := { assistant_id : string }.
Record Thread := { thread_id : string }.

(** [filename] is [None] when the object has no such attribute. *)
Record FileObject := { file_id : string; filename : option string }.

Record Attachment := { att_file_id : option string }.

(** A listed message: [attachments] is [None] when the attribute is missing
    or holds [None]; [msg_str] is [str(msg)], the provider-defined textual
    form scanned by the fallback. *)
Record Message := {
  attachments : option (list Attachment);
  msg_str : string
}.

Record TextDelta := { value : option string }.

(** What [st.file_uploader] returns when a file is selected. *)
Record UploadedFile := { uf_name : string; uf_data : bytes }.

(** The widget values of one execution of the script. [reset_btn] is what
    [st.button("Reset Session")] returns if the script gets to call it. *)
Record Inputs := {
  zip_file : option UploadedFile;
  user_prompt : string;
  run_btn : bool;
  reset_btn : bool
}.

(** ** Provider requests *)

Inductive Req :=
| AssistantsCreate (cfg : AssistantConfig)
| FilesCreate (file : UploadedFile) (purpose : string)
| ThreadsCreate
| ThreadsRetrieve (id : Val)
| ThreadsUpdate (id : string) (code_interpreter_file_ids : list Val)
| MessagesCreate (id : string) (role content : string)
| RunsStream (id : string) (assistant : string) (tool_choice : string)
| MessagesList (id : string)
| FilesRetrieve (id : string)
| FilesContent (id : string)
| FilesDelete (id : Val)
| ThreadsDelete (id : Val).

(** The answer to a streamed run: the text deltas delivered to the event
    handler, and the error that interrupts the stream after them, if any. *)
Definition resp_ty (r : Req) : Type :=
  match r with
  | AssistantsCreate _ => Assistant
  | FilesCreate _ _ => FileObject
  | ThreadsCreate => Thread
  | ThreadsRetrieve _ => Thread
  | ThreadsUpdate _ _ => Thread
  | MessagesCreate _ _ _ => Message
  | RunsStream _ _ _ => (list TextDelta * option string)%type
  | MessagesList _ => list Message
  | FilesRetrieve _ => FileObject
  | FilesContent _ => bytes
  | FilesDelete _ => unit
  | ThreadsDelete _ => unit
  end.

Inductive Result (A : Type) :=
| Ok (a : A)
| Err (msg : string).
Arguments Ok {A} a.
Arguments Err {A} msg.

(** A provider with internal state [P]: each request is answered, or fails
    with an API error, and moves the provider to a new state. *)
Definition Client (P : Type) : Type :=
  forall r : Req, P -> Result (resp_ty r) * P.

(** ** Exceptions *)

Inductive Exn :=
| APIError (msg : string)
| NameError (name : string)
| AttributeError (name : string)
| UnicodeDecodeError
| StopException
| RerunException.

(** [except Exception] does not catch Streamlit's script-control
    exceptions, which derive from [BaseException]. *)
Definition is_Exception (e : Exn) : bool :=
  match e with
  | StopException | RerunException => false
  | _ => true
  end.

Definition exn_str (e : Exn) : string :=
  match e with
  | APIError msg => msg
  | NameError name => "name '" +:+ name +:+ "' is not defined"
  | AttributeError name => "no attribute '" +:+ name +:+ "'"
  | UnicodeDecodeError => "'utf-8' codec can't decode bytes"
  | StopException => EmptyString
  | RerunException => EmptyString
  end.

(** ** Observable effects

    A provider request is recorded when it completes, with the error it
    raised, if any; for a streamed run that is after the deltas it
    delivered. *)

Inductive Widget :=
| StSpinner (text : string)
| StSuccess (body : string)
| StError (body : string)
| StHeader (body : string)
| StExpanderMarkdown (label body : string)
| StDownloadButton (label : string) (data file_name : Val) (mime : string).

Inductive Event :=
| Call (r : Req) (failure : option string)
| Ui (w : Widget)
| Sink (body : string)
| Print (line : string).

Definition is_delete (r : Req) : bool :=
  match r with
  | FilesDelete _ | ThreadsDelete _ => true
  | _ => false
  end.

Definition is_delete_call (ev : Event) : bool :=
  match ev with
  | Call r _ => is_delete r
  | _ => false
  end.


Definition is_assistant_create (ev : Event) : bool :=
  match ev with
  | Call (AssistantsCreate _) _ => true
  | _ => false
  end.

Definition is_content_fetch (ev : Event) : bool :=
  match ev with
  | Call (FilesContent _) _ => true
  | _ => false
  end.

Definition is_st_error (ev : Event) : bool :=
  match ev with
  | Ui (StError _) => true
  | _ => false
  end.

(** ** The fallback pattern [file-(?:[a-zA-Z0-9]+)]

    Strings are sequences of bytes (UTF-8); the literal and the character
    class of the pattern are ASCII, so no byte of a non-ASCII character
    takes part in a match. *)

Definition in_range (lo hi n : N) : bool :=
  ((lo <=? n) && (n <=? hi))%N.

Definition is_alnum (c : ascii) : bool :=
  let n := Ascii.N_of_ascii c in
  in_range 97 122 n || in_range 65 90 n || in_range 48 57 n.

Fixpoint strip_prefix (p s : string) : option string :=
  match p, s with
  | EmptyString, _ => Some s
  | String a p', String b s' =>
      if Ascii.eqb a b then strip_prefix p' s' else None
  | String _ _, EmptyString => None
  end.

Fixpoint alnum_run (s : string) : string :=
  match s with
  | String c s' => if is_alnum c then String c (alnum_run s') else EmptyString
  | EmptyString => EmptyString
  end.

(** A match starting at the first character of [s]: the literal tag, then
    the longest non-empty run of alphanumerics. *)
Definition pattern_match_here (s : string) : option string :=
  match strip_prefix "file-" s with
  | Some rest =>
      match alnum_run rest with
      | EmptyString => None
      | run => Some ("file-" +:+ run)
      end
  | None => None
  end.

(** [pattern.search(s)]: the leftmost match, [match.group(0)]. *)
Fixpoint pattern_search (s : string) : option string :=
  match pattern_match_here s with
  | Some m => Some m
  | None =>
      match s with
      | String _ s' => pattern_search s'
      | EmptyString => None
      end
  end.

(** ** [bytes.decode("utf-8")]: strict decoding fails on ill-formed input *)

Definition continuation (b : N) : bool := in_range 128 191 b.

Definition second_of_three (b0 b1 : N) : bool :=
  if (b0 =? 224)%N then in_range 160 191 b1
  else if (b0 =? 237)%N then in_range 128 159 b1
  else continuation b1.

Definition second_of_four (b0 b1 : N) : bool :=
  if (b0 =? 240)%N then in_range 144 191 b1
  else if (b0 =? 244)%N then in_range 128 143 b1
  else continuation b1.

Fixpoint utf8_well_formed (bs : list N) : bool :=
  match bs with
  | [] => true
  | b0 :: r0 =>
      if (b0 <=? 127)%N then utf8_well_formed r0
      else
        match r0 with
        | [] => false
        | b1 :: r1 =>
            if in_range 194 223 b0 then continuation b1 && utf8_well_formed r1
            else
              match r1 with
              | [] => false
              | b2 :: r2 =>
                  if in_range 224 239 b0
                  then second_of_three b0 b1 && continuation b2
                       && utf8_well_formed r2
                  else
                    match r2 with
                    | [] => false
                    | b3 :: r3 =>
                        in_range 240 244 b0 && second_of_four b0 b1
                        && continuation b2 && continuation b3
                        && utf8_well_formed r3
                    end
              end
        end
  end.

Definition decode_utf8 (b : bytes) : option string :=
  if utf8_well_formed (map Byte.to_N b)
  then Some (String.string_of_list_byte b)
  else None.

(** ** The streaming event handler (lines 157-166) *)

Record StreamHandler := { buffer : string }.

(** [__init__]: [self.buffer] starts empty; [self.box] is the placeholder
    [output_container], the target of the [Sink] events. *)
Definition StreamHandler_init : StreamHandler := {| buffer := EmptyString |}.

Definition on_text_delta (self : StreamHandler) (delta : TextDelta)
  : StreamHandler * list Event :=
  let self' := {| buffer := buffer self +:+ or_empty (value delta) |} in
  (self', [Sink (buffer self')]).

(** [stream.until_done()] hands every text delta to the handler, in order. *)
Fixpoint until_done (self : StreamHandler) (deltas : list TextDelta)
  : StreamHandler * list Event :=
  match deltas with
  | [] => (self, [])
  | d :: ds =>
      let '(self1, out1) := on_text_delta self d in
      let '(self2, out2) := until_done self1 ds in
      (self2, out1 ++ out2)
  end.

Definition sink_bodies (tr : list Event) : list string :=
  omap (fun ev => match ev with Sink s => Some s | _ => None end) tr.

(** ** Execution state and the script monad

    What survives an execution of the script: the provider's state, the
    session dictionary, and the process-wide cache behind
    [@st.cache_resource].  Module-level names of the script do not. *)

Record State (P : Type) := {
  provider : P;
  session_state : gmap string Val;
  resource_cache : option Assistant
}.
Arguments provider {P} _.
Arguments session_state {P} _.
Arguments resource_cache {P} _.

Definition with_provider {P} (p : P) (s : State P) : State P :=
  {| provider := p;
     session_state := session_state s;
     resource_cache := resource_cache s |}.

Definition with_session {P} (ss : gmap string Val) (s : State P) : State P :=
  {| provider := provider s;
     session_state := ss;
     resource_cache := resource_cache s |}.

Definition with_cache {P} (c : option Assistant) (s : State P) : State P :=
  {| provider := provider s;
     session_state := session_state s;
     resource_cache := c |}.

Inductive Res (A : Type) :=
| Return (a : A)
| Raise (e : Exn).
Arguments Return {A} a.
Arguments Raise {A} e.

(** A computation ends normally or with an exception, in a new state, and
    leaves the list of effects it performed. *)
Definition M (P A : Type) : Type := State P -> Res A * State P * list Event.

Definition ret {P A} (a : A) : M P A := fun s => (Return a, s, []).

Definition bind {P A B} (m : M P A) (k : A -> M P B) : M P B := fun s =>
  match m s with
  | (Return a, s1, tr1) =>
      let '(r, s2, tr2) := k a s1 in (r, s2, tr1 ++ tr2)
  | (Raise e, s1, tr1) => (Raise e, s1, tr1)
  end.

Definition raise {P A} (e : Exn) : M P A := fun s => (Raise e, s, []).

Definition emit {P} (ev : Event) : M P unit := fun s => (Return tt, s, [ev]).

Notation "'let*' x ':=' m 'in' k" := (bind m (fun x => k))
  (at level 10, x name, m at level 100, k at level 200).

(** [try: body / except Exception as e: handler]. *)
Definition try_except {P A} (body : M P A) (handler : Exn -> M P A) : M P A :=
  fun s =>
    match body s with
    | (Return a, s1, tr1) => (Return a, s1, tr1)
    | (Raise e, s1, tr1) =>
        if is_Exception e
        then let '(r, s2, tr2) := handler e s1 in (r, s2, tr1 ++ tr2)
        else (Raise e, s1, tr1)
    end.

(** [st.session_state.key]: reading a missing key raises. *)
Definition session_get {P} (key : string) : M P Val := fun s =>
  match session_state s !! key with
  | Some v => (Return v, s, [])
  | None => (Raise (AttributeError key), s, [])
  end.

(** [st.session_state.key = v]. *)
Definition session_set {P} (key : string) (v : Val) : M P unit := fun s =>
  (Return tt, with_session (<[key:=v]> (session_state s)) s, []).

(** Lines 94-102: every missing key is set to [None]. *)
Definition init_key (ss : gmap string Val) (key : string) : gmap string Val :=
  match ss !! key with
  | Some _ => ss
  | None => <[key:=VNone]> ss
  end.

Definition init_session_state {P} : M P unit := fun s =>
  (Return tt, with_session (foldl init_key (session_state s) SESSION_KEYS) s, []).

(** Lines 238-239: [for k in st.session_state.keys(): del st.session_state[k]].
    Iterating over the session proxy walks a copy of the dictionary taken
    when the loop starts, so every key of that copy is deleted. *)
Definition delete_all_keys (ss : gmap string Val) : gmap string Val :=
  foldl (fun m k => delete k m) ss (map_to_list ss).*1.

Definition clear_session_state {P} : M P unit := fun s =>
  (Return tt, with_session (delete_all_keys (session_state s)) s, []).

(** [name.endswith(suffix)]. *)
Fixpoint endswith (s suffix : string) : bool :=
  String.eqb s suffix ||
  match s with
  | String _ s' => endswith s' suffix
  | EmptyString => false
  end.

(** Line 190: [hasattr(file_obj, "filename") and file_obj.filename.endswith(".md")]. *)
Definition has_md_filename (file_obj : FileObject) : bool :=
  match filename file_obj with
  | Some name => endswith name ".md"
  | None => false
  end.

(** Lines 193-197: the first message whose string form contains a match. *)
Fixpoint fallback_search (msgs : list Message) : option string :=
  match msgs with
  | [] => None
  | msg :: rest =>
      match pattern_search (msg_str msg) with
      | Some m => Some m
      | None => fallback_search rest
      end
  end.

Definition ASSISTANT_CONFIG : AssistantConfig :=
  {| cfg_name := ASSISTANT_NAME;
     cfg_model := MODEL_NAME;
     cfg_temperature := TEMP;
     cfg_tools := ["code_interpreter"];
     cfg_instructions := INSTRUCTIONS |}.

Definition NOT_FOUND_MESSAGE : string :=
  "Could not find the generated Markdown report in the assistant messages.".

(** ** The script *)

Section Script.

Context {P : Type} (client : Client P).

(** A provider request: the answer is returned, an API error is raised. *)
Definition call (r : Req) : M P (resp_ty r) := fun s =>
  match client r (provider s) with
  | (Ok a, p) => (Return a, with_provider p s, [Call r None])
  | (Err msg, p) => (Raise (APIError msg), with_provider p s, [Call r (Some msg)])
  end.

(** Lines 169-175: [client.beta.threads.runs.stream(...)] with a fresh
    [StreamHandler], then [stream.until_done()].  The deltas reach the
    handler before an interruption of the stream is raised. *)
Definition runs_stream (thread : Thread) (assistant : Assistant) : M P unit :=
  fun s =>
    let r := RunsStream (thread_id thread) (assistant_id assistant)
                        "code_interpreter" in
    match client r (provider s) with
    | (Ok (deltas, interrupted), p) =>
        let '(_, out) := until_done StreamHandler_init deltas in
        (match interrupted with
         | None => Return tt
         | Some msg => Raise (APIError msg)
         end,
         with_provider p s, out ++ [Call r interrupted])
    | (Err msg, p) =>
        (Raise (APIError msg), with_provider p s, [Call r (Some msg)])
    end.

(** Lines 54-87: the decorated function body. *)
Definition create_assistant : M P Assistant :=
  call (AssistantsCreate ASSISTANT_CONFIG).

(** [@st.cache_resource]: the first successful call stores the returned
    object for the lifetime of the process; later calls return the stored
    object and do not run the body. *)
Definition cache_resource (body : M P Assistant) : M P Assistant := fun s =>
  match resource_cache s with
  | Some a => (Return a, s, [])
  | None =>
      match body s with
      | (Return a, s1, tr) => (Return a, with_cache (Some a) s1, tr)
      | (Raise e, s1, tr) => (Raise e, s1, tr)
      end
  end.

Definition _get_or_create_assistant : M P Assistant :=
  cache_resource create_assistant.

(** Lines 187-191: the attachments of one message. *)
Fixpoint scan_attachments (atts : list Attachment) : M P (option string) :=
  match atts with
  | [] => ret None
  | att :: rest =>
      match att_file_id att with
      | Some id =>
          if String.eqb id EmptyString then scan_attachments rest
          else
            let* file_obj := call (FilesRetrieve id) in
            if has_md_filename file_obj then ret (Some id)
            else scan_attachments rest
      | None => scan_attachments rest
      end
  end.

(** Lines 185-191: the first loop over [messages.data]. *)
Fixpoint scan_messages (msgs : list Message) : M P (option string) :=
  match msgs with
  | [] => ret None
  | msg :: rest =>
      let* found :=
        match attachments msg with
        | Some atts => scan_attachments atts
        | None => ret None
        end in
      match found with
      | Some id => ret (Some id)
      | None => scan_messages rest
      end
  end.

(** Lines 183-198. *)
Definition _extract_md_file_id (thread : Thread) : M P (option string) :=
  let* messages := call (MessagesList (thread_id thread)) in
  let* found := scan_messages messages in
  match found with
  | Some id => ret (Some id)
  | None => ret (fallback_search messages)
  end.

(** Lines 125-177: upload, thread, attachment, message, streamed run. *)
Definition run_analysis (zip : UploadedFile) (prompt : string)
    (assistant : Assistant) : M P Thread :=
  let* _ := emit (Ui (StSpinner "Uploading repository to OpenAI …")) in
  let* oai_file := call (FilesCreate zip "assistants") in
  let* _ := session_set "file_id" (VStr (file_id oai_file)) in
  let* tid := session_get "thread_id" in
  let* thread :=
    if is_None tid then
      let* thread := call ThreadsCreate in
      let* _ := session_set "thread_id" (VStr (thread_id thread)) in
      ret thread
    else call (ThreadsRetrieve tid) in
  let* fid := session_get "file_id" in
  let* _ := call (ThreadsUpdate (thread_id thread) [fid]) in
  let* _ := call (MessagesCreate (thread_id thread) "user" prompt) in
  let* _ := emit (Ui (StSpinner
              "ThreatLens‑AI is analysing … this can take a few minutes")) in
  let* _ := runs_stream thread assistant in
  let* _ := emit (Ui (StSuccess "Analysis complete! Preparing report …")) in
  ret thread.

(** Lines 200-209: locate the report, stop when there is none, else fetch
    it and record it in the session.  The value returned is what the
    module-level name [md_file_id] is bound to afterwards. *)
Definition locate_report (thread : Thread) : M P (option string) :=
  let* md_file_id := _extract_md_file_id thread in
  match md_file_id with
  | None =>
      let* _ := emit (Ui (StError NOT_FOUND_MESSAGE)) in
      raise StopException
  | Some id =>
      let* file_content := call (FilesContent id) in
      let* _ := session_set "report_bytes" (VBytes file_content) in
      let* _ := session_set "report_name" (VStr REPORT_NAME) in
      let* _ := session_set "run_finished" (VBool true) in
      ret (Some id)
  end.

(** Lines 120-209, the body of [if run_btn and zip_file is not None]. *)
Definition main_flow (zip : UploadedFile) (prompt : string)
    (assistant : Assistant) : M P (option string) :=
  let* thread := run_analysis zip prompt assistant in
  locate_report thread.

(** Reading a module-level name: [None] stands for a name that no
    statement of this execution has bound. *)
Definition read_name {A} (name : string) (binding : option A) : M P A :=
  match binding with
  | Some v => ret v
  | None => raise (NameError name)
  end.

(** Lines 229-240, the body of [if st.button("Reset Session")]. *)
Definition reset_session (md_file_id : option (option string)) : M P unit :=
  let* _ :=
    try_except
      (let* fid := session_get "file_id" in
       let* _ := if truthy fid then call (FilesDelete fid) else ret tt in
       let* md := read_name "md_file_id" md_file_id in
       let* _ := if str_truthy md
                 then call (FilesDelete (VStr (or_empty md)))
                 else ret tt in
       let* tid := session_get "thread_id" in
       if truthy tid then call (ThreadsDelete tid) else ret tt)
      (fun e => emit (Print ("Cleanup error: " +:+ exn_str e))) in
  let* _ := clear_session_state in
  raise RerunException.

(** Line 217: [st.session_state.report_bytes.decode("utf-8")]. *)
Definition decode (v : Val) : M P string :=
  match v with
  | VBytes b =>
      match decode_utf8 b with
      | Some text => ret text
      | None => raise UnicodeDecodeError
      end
  | _ => raise (AttributeError "decode")
  end.

(** Lines 214-240. *)
Definition preview_and_download (inp : Inputs)
    (md_file_id : option (option string)) : M P unit :=
  let* finished := session_get "run_finished" in
  if truthy finished then
    let* _ := emit (Ui (StHeader "📄 Report Preview")) in
    let* report := session_get "report_bytes" in
    let* text := decode report in
    let* _ := emit (Ui (StExpanderMarkdown
                          "Click to view full Markdown report" text)) in
    let* data := session_get "report_bytes" in
    let* name := session_get "report_name" in
    let* _ := emit (Ui (StDownloadButton "💾 Download Report" data name
                                          "text/markdown")) in
    if reset_btn inp then reset_session md_file_id else ret tt
  else ret tt.

(** One execution of the script (lines 89-240). *)
Definition script (inp : Inputs) : M P unit :=
  let* assistant := _get_or_create_assistant in
  let* _ := init_session_state in
  let* md_file_id :=
    match run_btn inp, zip_file inp with
    | true, Some zip =>
        let* id := main_flow zip (user_prompt inp) assistant in
        ret (Some id)
    | _, _ => ret None
    end in
  preview_and_download inp md_file_id.

End Script.

(** ** Simulated providers, used to exercise the script *)

Definition newline : string := String (ascii_of_nat 10) EmptyString.

Definition demo_zip : UploadedFile :=
  {| uf_name := "demo.zip"; uf_data := [x50; x4b; x03; x04] |}.

Definition demo_report : bytes :=
  [x23; x20; x52; x65; x70; x6f; x72; x74; x0a].

Definition demo_deltas : list TextDelta :=
  [ {| value := Some ("# Report" +:+ newline) |};
    {| value := None |};
    {| value := Some ("## Summary" +:+ newline) |} ].

(** The messages of a run that attached its report: the first message only
    mentions a file identifier in its text, the second carries a text file
    and the Markdown report. *)
Definition demo_messages : list Message :=
  [ {| attachments := Some [];
       msg_str := "Message(content='see file-Txt9 and file-Md42')" |};
    {| attachments := Some [ {| att_file_id := None |};
                             {| att_file_id := Some "file-Txt9" |};
                             {| att_file_id := Some "file-Md42" |} ];
       msg_str := "Message(attachments=[file-Txt9, file-Md42])" |} ].

(** The messages of a run that produced no file at all. *)
Definition bare_messages : list Message :=
  [ {| attachments := None; msg_str := "Message(content='no file- here')" |};
    {| attachments := Some [ {| att_file_id := Some "file-Txt9" |} ];
       msg_str := "Message(content='profile-: done')" |} ].

Definition demo_metadata (id : string) : FileObject :=
  {| file_id := id;
     filename := if String.eqb id "file-Md42" then Some "report.md"
                 else Some "notes.txt" |}.

(** A provider that counts the requests it served.  [upload] is its answer
    to an upload and [messages] its message list; every other request
    succeeds. *)
Definition simulated_client (upload : Result FileObject)
    (messages : list Message) : Client nat :=
  fun r =>
    match r as r0 return nat -> Result (resp_ty r0) * nat with
    | AssistantsCreate _ => fun n => (Ok {| assistant_id := "asst_1" |}, S n)
    | FilesCreate _ _ => fun n => (upload, S n)
    | ThreadsCreate => fun n => (Ok {| thread_id := "thread_1" |}, S n)
    | ThreadsRetrieve id => fun n =>
        (match id with
         | VStr t => Ok {| thread_id := t |}
         | _ => Err "invalid thread id"
         end, S n)
    | ThreadsUpdate id _ => fun n => (Ok {| thread_id := id |}, S n)
    | MessagesCreate _ _ content => fun n =>
        (Ok {| attachments := None; msg_str := content |}, S n)
    | RunsStream _ _ _ => fun n => (Ok (demo_deltas, None), S n)
    | MessagesList _ => fun n => (Ok messages, S n)
    | FilesRetrieve id => fun n => (Ok (demo_metadata id), S n)
    | FilesContent _ => fun n => (Ok demo_report, S n)
    | FilesDelete _ => fun n => (Ok tt, S n)
    | ThreadsDelete _ => fun n => (Ok tt, S n)
    end.

Definition demo_client : Client nat :=
  simulated_client (Ok {| file_id := "file-Zip1"; filename := Some "demo.zip" |})
                   demo_messages.

Definition bare_client : Client nat :=
  simulated_client (Ok {| file_id := "file-Zip1"; filename := Some "demo.zip" |})
                   bare_messages.

Definition failing_upload_client : Client nat :=
  simulated_client (Err "Connection error.") demo_messages.

(** A brand-new session in a fresh process. *)
Definition fresh_state : State nat :=
  {| provider := 0; session_state := ∅; resource_cache := None |}.

(** The session left by a completed analysis. *)
Definition finished_session : gmap string Val :=
  <["run_finished" := VBool true]>
  (<["report_name" := VStr REPORT_NAME]>
  (<["report_bytes" := VBytes demo_report]>
  (<["thread_id" := VStr "thread_1"]>
  (<["file_id" := VStr "file-Zip1"]> ∅)))).

Definition finished_state : State nat :=
  {| provider := 7;
     session_state := finished_session;
     resource_cache := Some {| assistant_id := "asst_1" |} |}.

Definition click_analyse : Inputs :=
  {| zip_file := Some demo_zip; user_prompt := DEFAULT_PROMPT;
     run_btn := true; reset_btn := false |}.

Definition click_reset : Inputs :=
  {| zip_file := Some demo_zip; user_prompt := DEFAULT_PROMPT;
     run_btn := false; reset_btn := true |}.

Definition no_click : Inputs :=
  {| zip_file := None; user_prompt := DEFAULT_PROMPT;
     run_btn := false; reset_btn := false |}.

(** Two bytes that are not well-formed UTF-8, and a session that has stored
    them as its report. *)
Definition garbled_report : bytes := [xc3; x28].

Definition garbled_state : State nat :=
  {| provider := 7;
     session_state := <["report_bytes" := VBytes garbled_report]> finished_session;
     resource_cache := Some {| assistant_id := "asst_1" |} |}.

(** ** Vocabulary of the statements *)

(** [wp m Q s]: running [m] from [s] ends in a result, state and effect
    list satisfying [Q]. *)
Definition wp {P A} (m : M P A) (Q : Res A -> State P -> list Event -> Prop)
    (s : State P) : Prop :=
  match m s with
  | (r, s1, tr) => Q r s1 tr
  end.

(** The concatenation of the fragments, an absent value counting as the
    empty string. *)
Definition fragments_text (deltas : list TextDelta) : string :=
  foldr (fun d acc => or_empty (value d) +:+ acc) EmptyString deltas.

Definition is_sink (ev : Event) : bool :=
  match ev with
  | Sink _ => true
  | _ => false
  end.

(** The requests of the extraction step. *)
Definition is_lookup_call (ev : Event) : bool :=
  match ev with
  | Call (MessagesList _) _ | Call (FilesRetrieve _) _ => true
  | _ => false
  end.

Definition is_failed_call (ev : Event) : bool :=
  match ev with
  | Call _ (Some _) => true
  | _ => false
  end.

(** How a computation that only issues provider requests can end: normally,
    every request having succeeded, or with the API error of its last
    request. *)
Definition request_outcome {A} (r : Res A) (tr : list Event) : Prop :=
  match r with
  | Return _ => Forall (fun ev => is_failed_call ev = false) tr
  | Raise e =>
      exists req msg tr0,
        e = APIError msg /\ tr = tr0 ++ [Call req (Some msg)] /\
        Forall (fun ev => is_failed_call ev = false) tr0
  end.


(** The extraction step only issues lookups, touches nothing but the
    provider, and fails only with the error of its last request. *)
Definition lookup_post {P A} (s : State P)
    (Q : Res A -> State P -> list Event -> Prop) : Prop :=
  forall r s1 tr,
    session_state s1 = session_state s ->
    resource_cache s1 = resource_cache s ->
    Forall (fun ev => is_lookup_call ev = true) tr ->
    request_outcome r tr ->
    Q r s1 tr.

(** The file identifiers carried by the attachments of a message (an
    attachment without one is skipped), and of the listed messages, in
    message order. *)
Definition attachment_ids (atts : list Attachment) : list string :=
  omap (fun att =>
          match att_file_id att with
          | Some id => if String.eqb id EmptyString then None else Some id
          | None => None
          end) atts.

Definition message_file_ids (msg : Message) : list string :=
  match attachments msg with
  | Some atts => attachment_ids atts
  | None => []
  end.

Definition attachment_file_ids (msgs : list Message) : list string :=
  flat_map message_file_ids msgs.

(** The extraction as the specification words it: the first attachment whose
    metadata names a Markdown file; only when there is none, the first match
    of the pattern in the string form of a message. *)
Definition preferred_report_id (is_md : string -> bool) (msgs : list Message)
  : option string :=
  match List.find is_md (attachment_file_ids msgs) with
  | Some id => Some id
  | None => head (omap (fun msg => pattern_search (msg_str msg)) msgs)
  end.

(** The metadata of file [id], whenever it is retrieved, says whether the
    file is a Markdown file as [is_md] does. *)
Definition metadata_known {P} (client : Client P) (is_md : string -> bool)
    (id : string) : Prop :=
  forall p, exists file_obj p',
    client (FilesRetrieve id) p = (Ok file_obj, p') /\
    has_md_filename file_obj = is_md id.

(** The keys under which the report is recorded. *)
Definition REPORT_KEYS : list string :=
  ["report_bytes"; "report_name"; "run_finished"].

Definition is_thread_delete (ev : Event) : bool :=
  match ev with
  | Call (ThreadsDelete _) _ => true
  | _ => false
  end.

Definition is_file_delete (ev : Event) : bool :=
  match ev with
  | Call (FilesDelete _) _ => true
  | _ => false
  end.

(** The provider requests of a trace, in order. *)
Definition requests (tr : list Event) : list Req :=
  omap (fun ev => match ev with Call r _ => Some r | _ => None end) tr.

Definition prints (tr : list Event) : list string :=
  omap (fun ev => match ev with Print line => Some line | _ => None end) tr.

(** A streamed run, if the event is one, is a run of assistant [a]. *)
Definition runs_with (a : Assistant) (ev : Event) : bool :=
  match ev with
  | Call (RunsStream _ id _) _ => String.eqb id (assistant_id a)
  | _ => true
  end.

(** An event that is not a failed request, or is a failed clean-up
    deletion. *)
Definition harmless (ev : Event) : bool :=
  negb (is_failed_call ev) || is_delete_call ev.

(** How provider errors show in the outcome of an execution: the execution
    ends with an uncaught API error exactly when a request other than a
    clean-up deletion failed, that request then being the last effect. *)
Definition error_outcome {A} (r : Res A) (tr : list Event) : Prop :=
  match r with
  | Raise (APIError msg) =>
      exists req tr0,
        tr = tr0 ++ [Call req (Some msg)] /\ is_delete req = false /\
        Forall (fun ev => harmless ev = true) tr0
  | _ => Forall (fun ev => harmless ev = true) tr
  end.

(** [if st.session_state.run_finished:] would take the branch. *)
Definition run_finished_set (ss : gmap string Val) : bool :=
  match ss !! "run_finished" with
  | Some v => truthy v
  | None => false
  end.

(** Whenever the completion flag is set, the report bytes and the canonical
    report name are stored. *)
Definition session_inv (ss : gmap string Val) : Prop :=
  run_finished_set ss = true ->
  exists b,
    ss !! "report_bytes" = Some (VBytes b) /\
    ss !! "report_name" = Some (VStr REPORT_NAME).

Definition keys_present (ss : gmap string Val) : Prop :=
  forall k, k ∈ SESSION_KEYS -> is_Some (ss !! k).

(** The session dictionaries a session can hold between two executions of
    the script: the empty one of a new session, and what an execution
    leaves, whatever the widget values, the provider and the cache. *)
Inductive reachable {P} (client : Client P) : gmap string Val -> Prop :=
| reachable_new : reachable client ∅
| reachable_run (s : State P) (inp : Inputs) :
    reachable client (session_state s) ->
    reachable client (session_state (script client inp s).1.2).

Definition is_download (ev : Event) : bool :=
  match ev with
  | Ui (StDownloadButton _ _ _ _) => true
  | _ => false
  end.


(** Every character of the run is alphanumeric. *)
Fixpoint all_alnum (s : string) : bool :=
  match s with
  | String c s' => is_alnum c && all_alnum s'
  | EmptyString => true
  end.

(** What a run started in state [s] leaves under the archive key, whatever
    happens after step 1: the handle the provider answers to the upload,
    and what the key held when the upload fails. *)
Definition archive_id_stored {P} (client : Client P) (zip : UploadedFile)
    (s : State P) : option Val :=
  match client (FilesCreate zip "assistants") (provider s) with
  | (Ok oai_file, _) => Some (VStr (file_id oai_file))
  | (Err _, _) => session_state s !! "file_id"
  end.

(** What it leaves under the thread key, whatever happens after step 2: the
    identifier of the thread the provider creates, when the upload has
    succeeded, the key holds [None] and the creation succeeds; what the key
    held in every other case. *)
Definition thread_id_stored {P} (client : Client P) (zip : UploadedFile)
    (s : State P) : option Val :=
  match client (FilesCreate zip "assistants") (provider s) with
  | (Ok _, p) =>
      match session_state s !! "thread_id" with
      | Some v =>
          if is_None v then
            match client ThreadsCreate p with
            | (Ok thread, _) => Some (VStr (thread_id thread))
            | (Err _, _) => Some v
            end
          else Some v
      | None => None
      end
  | (Err _, _) => session_state s !! "thread_id"
  end.

(** ** Vocabulary of the further properties *)

(** The string starts with a letter or digit of the pattern's class. *)
Definition starts_alnum (s : string) : bool :=
  match s with
  | String c _ => is_alnum c
  | EmptyString => false
  end.

(** In [s], the literal tag stands right after [pre] and is followed by a
    letter or digit: a match of the pattern starts there. *)
Definition tag_at (s pre : string) : Prop :=
  exists c post, s = pre +:+ "file-" +:+ String c post /\ is_alnum c = true.

Definition has_token (s : string) : Prop := exists pre, tag_at s pre.

(** The provider has answered, in some state, the retrieval of the metadata
    of file [id] with a file object whose name ends in [.md]. *)
Definition accepted_as_md {P} (client : Client P) (id : string) : Prop :=
  exists p0 file_obj p1,
    client (FilesRetrieve id) p0 = (Ok file_obj, p1) /\
    has_md_filename file_obj = true.

(** What a scan over the attachments carrying the identifiers [all] leaves:
    the metadata of a prefix [ids] of them was requested, in order, the scan
    ending at the first accepted one, at a failed request, or with [all]
    of them rejected. *)
Definition scan_post {P} (client : Client P) (all : list string)
    (r : Res (option string)) (tr : list Event) (ids : list string) : Prop :=
  ids `prefix_of` all /\
  requests tr = map FilesRetrieve ids /\
  match r with
  | Return None => ids = all
  | Return (Some id) => last ids = Some id /\ accepted_as_md client id
  | Raise e => exists msg, e = APIError msg
  end.

(** The error message of the first failed provider request of a trace, and
    the effects that follow that request. *)
Fixpoint after_first_failure (tr : list Event) : option (string * list Event) :=
  match tr with
  | [] => None
  | Call _ (Some msg) :: rest => Some (msg, rest)
  | _ :: rest => after_first_failure rest
  end.

(** What the script stores under a session key: [None], or a string under
    the thread and archive keys, [True] under the completion flag, bytes
    under the report key, the canonical name under the name key. *)
Definition key_holds (k : string) (v : Val) : bool :=
  match v with
  | VNone => true
  | VStr name =>
      String.eqb k "thread_id" || String.eqb k "file_id" ||
      (String.eqb k "report_name" && String.eqb name REPORT_NAME)
  | VBool b => String.eqb k "run_finished" && b
  | VBytes _ => String.eqb k "report_bytes"
  end.

(** The dictionary holds the five session keys at most, each with a value
    of its kind. *)
Definition session_typed (ss : gmap string Val) : Prop :=
  forall k v, ss !! k = Some v -> k ∈ SESSION_KEYS /\ key_holds k v = true.

(** The identifiers of [ids] up to and including the first one that [f]
    accepts; all of them when it accepts none. *)
Fixpoint through_first (f : string -> bool) (ids : list string) : list string :=
  match ids with
  | [] => []
  | id :: rest => if f id then [id] else id :: through_first f rest
  end.

(** The successful requests of the metadata of the files [ids]. *)
Definition retrievals (ids : list string) : list Event :=
  map (fun id => Call (FilesRetrieve id) None) ids.

(** The provider's answer at step 2 (lines 132-136) in state [p]: to the
    creation of a thread when the session holds no thread identifier, to
    the retrieval of the stored identifier [v] otherwise. *)
Definition thread_step {P} (client : Client P) (v : Val) (p : P)
  : Result Thread * P :=
  if is_None v then client ThreadsCreate p
  else client (ThreadsRetrieve v) p.

(** * Verification *)

(** ** The string functions on examples *)

Example pattern_search_leftmost :
  pattern_search "xxfile-file-aB9_z file-q" = Some "file-file".
Proof. reflexivity. Qed.

Example pattern_search_needs_token :
  pattern_search "no file- here, profile-: done" = None.
Proof. reflexivity. Qed.

Example endswith_md :
  endswith "report.md" ".md" = true /\
  endswith "report.md.txt" ".md" = false /\
  endswith "md" ".md" = false.
Proof. repeat split. Qed.

Example decode_utf8_ill_formed : decode_utf8 [xc3; x28] = None.
Proof. reflexivity. Qed.

Example decode_utf8_well_formed :
  decode_utf8 [x61; xe2; x80; xa6]
  = Some (String.string_of_list_byte [x61; xe2; x80; xa6]).
Proof. reflexivity. Qed.

Lemma alnum_run_all_alnum (s : string) : all_alnum (alnum_run s) = true.
Proof.
  induction s as [|c s IH]; [reflexivity|]. cbn.
  destruct (is_alnum c) eqn:Hc; [|reflexivity]. cbn. by rewrite Hc.
Qed.

(** A match of the pattern is the literal tag followed by a non-empty run
    of alphanumerics. *)
Lemma pattern_search_shape (s m : string) :
  pattern_search s = Some m ->
  exists run, m = "file-" +:+ run /\ run <> EmptyString /\ all_alnum run = true.
Proof.
  induction s as [|c s IH]; cbn [pattern_search]; unfold pattern_match_here.
  - cbn. discriminate.
  - destruct (strip_prefix "file-" (String c s)) as [rest|]; [|exact IH].
    pose proof (alnum_run_all_alnum rest) as Hall.
    destruct (alnum_run rest) as [|c' run'] eqn:Hrun; [exact IH|].
    intros [= <-]. exists (String c' run'). by repeat split.
Qed.

(** ** Reasoning rules for script computations *)

Section Rules.

Context {P : Type} (client : Client P).

Lemma wp_run {A} (m : M P A) Q s :
  wp m Q s <-> Q (m s).1.1 (m s).1.2 (m s).2.
Proof. unfold wp. destruct (m s) as [[r s1] tr]. reflexivity. Qed.

Lemma wp_mono {A} (m : M P A) (Q Q' : Res A -> State P -> list Event -> Prop) s :
  (forall r s1 tr, Q r s1 tr -> Q' r s1 tr) -> wp m Q s -> wp m Q' s.
Proof. unfold wp. destruct (m s) as [[r s1] tr]. auto. Qed.

Lemma wp_ret {A} (a : A) Q (s : State P) :
  Q (Return a) s [] -> wp (ret a) Q s.
Proof. trivial. Qed.

Lemma wp_raise {A} e (Q : Res A -> _) (s : State P) :
  Q (Raise e) s [] -> wp (raise e) Q s.
Proof. trivial. Qed.

Lemma wp_emit ev Q (s : State P) :
  Q (Return tt) s [ev] -> wp (emit ev) Q s.
Proof. trivial. Qed.

Lemma wp_bind {A B} (m : M P A) (k : A -> M P B) Q s :
  wp m (fun r s1 tr1 =>
          match r with
          | Return a => wp (k a) (fun r2 s2 tr2 => Q r2 s2 (tr1 ++ tr2)) s1
          | Raise e => Q (Raise e) s1 tr1
          end) s ->
  wp (bind m k) Q s.
Proof.
  unfold wp, bind. destruct (m s) as [[[a|e] s1] tr1]; [|trivial].
  destruct (k a s1) as [[r2 s2] tr2]. trivial.
Qed.

Lemma wp_call (r : Req) Q s :
  (forall a p, client r (provider s) = (Ok a, p) ->
               Q (Return a) (with_provider p s) [Call r None]) ->
  (forall msg p, client r (provider s) = (Err msg, p) ->
                 Q (Raise (APIError msg)) (with_provider p s)
                   [Call r (Some msg)]) ->
  wp (call client r) Q s.
Proof.
  intros Hok Herr. unfold wp, call.
  destruct (client r (provider s)) as [[a|msg] p]; auto.
Qed.

Lemma wp_session_get key Q (s : State P) :
  (forall v, session_state s !! key = Some v -> Q (Return v) s []) ->
  (session_state s !! key = None -> Q (Raise (AttributeError key)) s []) ->
  wp (session_get key) Q s.
Proof.
  intros Hsome Hnone. unfold wp, session_get.
  destruct (session_state s !! key); auto.
Qed.

Lemma wp_session_set key v Q (s : State P) :
  Q (Return tt) (with_session (<[key:=v]> (session_state s)) s) [] ->
  wp (session_set key v) Q s.
Proof. trivial. Qed.

End Rules.

(** ** Streamed text *)

Lemma append_cons (c : ascii) (s1 s2 : string) :
  String c s1 +:+ s2 = String c (s1 +:+ s2).
Proof. reflexivity. Qed.

Lemma append_empty_r (s : string) : s +:+ EmptyString = s.
Proof.
  induction s as [|c s IH]; [reflexivity|]. by rewrite append_cons, IH.
Qed.

Lemma append_assoc (s1 s2 s3 : string) :
  (s1 +:+ s2) +:+ s3 = s1 +:+ (s2 +:+ s3).
Proof.
  induction s1 as [|c s1 IH]; [reflexivity|]. by rewrite !append_cons, IH.
Qed.

Lemma sink_bodies_app (tr1 tr2 : list Event) :
  sink_bodies (tr1 ++ tr2) = sink_bodies tr1 ++ sink_bodies tr2.
Proof. apply omap_app. Qed.

Lemma sink_bodies_sink (body : string) (tr : list Event) :
  sink_bodies (Sink body :: tr) = body :: sink_bodies tr.
Proof. reflexivity. Qed.

Lemma until_done_cons (self : StreamHandler) d ds :
  (until_done self (d :: ds)).2
  = Sink (buffer self +:+ or_empty (value d))
    :: (until_done {| buffer := buffer self +:+ or_empty (value d) |} ds).2.
Proof. cbn. by destruct (until_done _ ds). Qed.

Lemma until_done_pushes (deltas : list TextDelta) :
  forall (self : StreamHandler) (n : nat),
    n < length deltas ->
    sink_bodies (until_done self deltas).2 !! n
    = Some (buffer self +:+ fragments_text (take (S n) deltas)).
Proof.
  induction deltas as [|d ds IH]; intros self n Hn; simpl in Hn; [lia|].
  rewrite until_done_cons, sink_bodies_sink.
  destruct n as [|n].
  - cbn. by rewrite append_empty_r.
  - cbn [lookup list_lookup]. rewrite IH by lia.
    cbn [buffer take fragments_text foldr]. by rewrite append_assoc.
Qed.

Lemma until_done_push_count (deltas : list TextDelta) :
  forall self, length (sink_bodies (until_done self deltas).2) = length deltas.
Proof.
  induction deltas as [|d ds IH]; intros self; [reflexivity|].
  rewrite until_done_cons, sink_bodies_sink. cbn [length]. by rewrite IH.
Qed.

Section Streaming.
Context {P : Type} (client : Client P).

(** C1. During a streamed run, the text pushed to the display placeholder
    after the Nth fragment is the concatenation of fragments 1..N, an absent
    value counting as the empty string; there is exactly one push per
    fragment, also when the stream is interrupted afterwards. *)
Theorem sink_receives_text_so_far (thread : Thread) (assistant : Assistant)
    (s : State P) (deltas : list TextDelta) (interrupted : option string)
    (p : P) (N : nat) :
  client (RunsStream (thread_id thread) (assistant_id assistant)
                     "code_interpreter") (provider s)
    = (Ok (deltas, interrupted), p) ->
  1 <= N <= length deltas ->
  let pushes := sink_bodies (runs_stream client thread assistant s).2 in
  length pushes = length deltas /\
  pushes !! (N - 1) = Some (fragments_text (take N deltas)).
Proof.
  intros Hstream HN pushes. subst pushes. unfold runs_stream.
  rewrite Hstream.
  pose proof (until_done_pushes deltas StreamHandler_init (N - 1)) as Hnth.
  pose proof (until_done_push_count deltas StreamHandler_init) as Hlen.
  destruct (until_done StreamHandler_init deltas) as [self out].
  cbn [snd] in *. rewrite sink_bodies_app. cbn [sink_bodies omap].
  rewrite app_nil_r. split; [exact Hlen|].
  rewrite Hnth by lia. replace (S (N - 1)) with N by lia. reflexivity.
Qed.

End Streaming.

Lemma sink_receives_text_so_far_witness :
  sink_bodies (runs_stream demo_client {| thread_id := "thread_1" |}
                 {| assistant_id := "asst_1" |} fresh_state).2 !! 2
  = Some ("# Report" +:+ newline +:+ "## Summary" +:+ newline).
Proof.
  refine (proj2 (sink_receives_text_so_far demo_client _ _ fresh_state
                   demo_deltas None 1 3 _ _)).
  - reflexivity.
  - simpl. lia.
Defined.

(** ** More rules, and the stepping tactics *)

Section MoreRules.
Context {P : Type} (client : Client P).

Lemma wp_init_session_state Q (s : State P) :
  Q (Return tt)
    (with_session (foldl init_key (session_state s) SESSION_KEYS) s) [] ->
  wp init_session_state Q s.
Proof. trivial. Qed.

Lemma wp_clear_session_state Q (s : State P) :
  Q (Return tt) (with_session (delete_all_keys (session_state s)) s) [] ->
  wp clear_session_state Q s.
Proof. trivial. Qed.

Lemma wp_try_except {A} (body : M P A) handler Q s :
  wp body (fun r s1 tr1 =>
             match r with
             | Return a => Q (Return a) s1 tr1
             | Raise e =>
                 if is_Exception e
                 then wp (handler e) (fun r2 s2 tr2 => Q r2 s2 (tr1 ++ tr2)) s1
                 else Q (Raise e) s1 tr1
             end) s ->
  wp (try_except body handler) Q s.
Proof.
  unfold wp, try_except. destruct (body s) as [[[a|e] s1] tr1]; [trivial|].
  destruct (is_Exception e); [|trivial].
  destruct (handler e s1) as [[r2 s2] tr2]. trivial.
Qed.

Lemma wp_read_name {A} name (binding : option A) Q (s : State P) :
  (forall v, binding = Some v -> Q (Return v) s []) ->
  (binding = None -> Q (Raise (NameError name)) s []) ->
  wp (read_name name binding) Q s.
Proof. intros Hsome Hnone. destruct binding; cbn; auto. Qed.

Lemma until_done_only_sinks deltas :
  forall self, Forall (fun ev => is_sink ev = true) (until_done self deltas).2.
Proof.
  induction deltas as [|d ds IH]; intros self; [constructor|].
  rewrite until_done_cons. constructor; [reflexivity | apply IH].
Qed.

Lemma wp_runs_stream thread assistant Q s :
  let r := RunsStream (thread_id thread) (assistant_id assistant)
                      "code_interpreter" in
  (forall deltas interrupted p out,
     client r (provider s) = (Ok (deltas, interrupted), p) ->
     Forall (fun ev => is_sink ev = true) out ->
     Q (match interrupted with
        | None => Return tt
        | Some msg => Raise (APIError msg)
        end) (with_provider p s) (out ++ [Call r interrupted])) ->
  (forall msg p, client r (provider s) = (Err msg, p) ->
     Q (Raise (APIError msg)) (with_provider p s) [Call r (Some msg)]) ->
  wp (runs_stream client thread assistant) Q s.
Proof.
  intros r Hok Herr. unfold wp, runs_stream. fold r.
  destruct (client r (provider s)) as [[[deltas interrupted]|msg] p] eqn:Hc;
    [|by apply Herr].
  pose proof (until_done_only_sinks deltas StreamHandler_init) as Hsinks.
  destruct (until_done StreamHandler_init deltas) as [self out].
  exact (Hok deltas interrupted p out eq_refl Hsinks).
Qed.

Lemma wp_get_or_create_assistant Q s :
  let r := AssistantsCreate ASSISTANT_CONFIG in
  (forall a, resource_cache s = Some a -> Q (Return a) s []) ->
  (forall a p, resource_cache s = None -> client r (provider s) = (Ok a, p) ->
     Q (Return a) (with_cache (Some a) (with_provider p s)) [Call r None]) ->
  (forall msg p, resource_cache s = None ->
     client r (provider s) = (Err msg, p) ->
     Q (Raise (APIError msg)) (with_provider p s) [Call r (Some msg)]) ->
  wp (_get_or_create_assistant client) Q s.
Proof.
  intros r Hhit Hok Herr.
  unfold wp, _get_or_create_assistant, cache_resource, create_assistant, call.
  fold r. destruct (resource_cache s) as [a|] eqn:Hcache; [by apply Hhit|].
  destruct (client r (provider s)) as [[a|msg] p] eqn:Hc; auto.
Qed.

End MoreRules.

Ltac wp_step :=
  lazymatch goal with
  | |- wp (bind _ _) _ _ => apply wp_bind
  | |- wp (ret _) _ _ => apply wp_ret
  | |- wp (raise _) _ _ => apply wp_raise
  | |- wp (emit _) _ _ => apply wp_emit
  | |- wp (call _ ?r) _ _ =>
      apply (wp_call _ r); [intros ? ? ? | intros ? ? ?]
  | |- wp (session_get _) _ _ => apply wp_session_get; [intros ? ? | intros ?]
  | |- wp (session_set _ _) _ _ => apply wp_session_set
  | |- wp init_session_state _ _ => apply wp_init_session_state
  | |- wp clear_session_state _ _ => apply wp_clear_session_state
  | |- wp (try_except _ _) _ _ => apply wp_try_except
  | |- wp (read_name _ _) _ _ => apply wp_read_name; [intros ? ? | intros ?]
  | |- wp (runs_stream _ _ _) _ _ =>
      apply wp_runs_stream; [intros ? [?|] ? ? ? ? | intros ? ? ?]
  | |- wp (_get_or_create_assistant _) _ _ =>
      apply wp_get_or_create_assistant; [intros ? ? | intros ? ? ? ? | intros ? ? ? ?]
  | |- wp (if ?b then _ else _) _ _ => destruct b eqn:?
  | |- wp (match ?x with _ => _ end) _ _ => destruct x eqn:?
  | |- if is_Exception ?e then _ else _ =>
      first [ is_var e; destruct e | idtac ]; cbn [is_Exception]
  end; cbv beta iota.


(** ** The extraction step, abstractly *)

Lemma request_outcome_app {A} (r : Res A) (tr1 tr2 : list Event) :
  Forall (fun ev => is_failed_call ev = false) tr1 ->
  request_outcome r tr2 ->
  request_outcome r (tr1 ++ tr2).
Proof.
  intros H1 H2. destruct r as [b|e]; simpl in *.
  - by apply Forall_app.
  - destruct H2 as (req & msg & tr0 & -> & -> & H0).
    exists req, msg, (tr1 ++ tr0). rewrite app_assoc.
    repeat split; try done. by apply Forall_app.
Qed.

Section Extraction.
Context {P : Type} (client : Client P).

Lemma wp_scan_attachments atts :
  forall Q s, lookup_post s Q -> wp (scan_attachments client atts) Q s.
Proof.
  induction atts as [|att rest IH]; intros Q s HQ; cbn [scan_attachments].
  - apply wp_ret. apply HQ; by constructor.
  - destruct (att_file_id att) as [id|]; [|by apply IH].
    destruct (String.eqb id EmptyString); [by apply IH|].
    apply wp_bind, wp_call; cbv beta iota.
    + intros file_obj p Hc. destruct (has_md_filename file_obj).
      * apply wp_ret. rewrite app_nil_r.
        apply HQ; repeat constructor.
      * apply IH. intros r s1 tr Hs Hcache Htr Hr.
        apply (HQ r s1 (_ :: tr)); [done|done|by constructor|].
        by apply (request_outcome_app r [_] tr); [repeat constructor|].
    + intros msg p Hc. apply HQ; [done|done|by repeat constructor|].
      exists (FilesRetrieve id), msg, []. by repeat split.
Qed.

Lemma wp_scan_messages msgs :
  forall Q s, lookup_post s Q -> wp (scan_messages client msgs) Q s.
Proof.
  induction msgs as [|msg rest IH]; intros Q s HQ; cbn [scan_messages].
  - apply wp_ret. apply HQ; by constructor.
  - apply wp_bind.
    assert (Hatt : forall (m : M P (option string)),
               (forall Q' s', lookup_post s' Q' -> wp m Q' s') ->
               wp m (fun r s1 tr1 =>
                 match r with
                 | Return a =>
                     wp match a with
                        | Some id => ret (Some id)
                        | None => scan_messages client rest
                        end (fun r2 s2 tr2 => Q r2 s2 (tr1 ++ tr2)) s1
                 | Raise e => Q (Raise e) s1 tr1
                 end) s).
    { intros m Hm. apply Hm. intros r s1 tr Hs Hcache Htr Hr.
      destruct r as [[id|]|e]; [| |by apply HQ].
      - apply wp_ret. rewrite app_nil_r. by apply HQ.
      - apply IH. intros r2 s2 tr2 Hs2 Hcache2 Htr2 Hr2.
        apply (HQ r2 s2 (tr ++ tr2)); [congruence|congruence|by apply Forall_app|].
        by apply request_outcome_app. }
    destruct (attachments msg) as [atts|]; apply Hatt.
    + apply wp_scan_attachments.
    + intros Q' s' HQ'. apply wp_ret. apply HQ'; by constructor.
Qed.

Lemma wp_extract_md_file_id thread Q s :
  lookup_post s Q -> wp (_extract_md_file_id client thread) Q s.
Proof.
  intros HQ. unfold _extract_md_file_id.
  apply wp_bind, wp_call; cbv beta iota.
  - intros messages p Hc. apply wp_bind, wp_scan_messages.
    intros r s1 tr Hs Hcache Htr Hr.
    assert (Hcons : forall (r' : Res (option string)),
               request_outcome r' tr ->
               Q r' s1 ([Call (MessagesList (thread_id thread)) None] ++ tr)).
    { intros r' Hr'. apply HQ; [done|done|by constructor|].
      by apply (request_outcome_app r' [_] tr); [repeat constructor|]. }
    destruct r as [[id|]|e]; cbv beta iota.
    + apply wp_ret. rewrite app_nil_r. by apply Hcons.
    + apply wp_ret. rewrite app_nil_r. by apply Hcons.
    + by apply Hcons.
  - intros msg p Hc. apply HQ; [done|done|by repeat constructor|].
    exists (MessagesList (thread_id thread)), msg, []. by repeat split.
Qed.

End Extraction.

(** ** Session keys and trace automation *)

Ltac simpl_state :=
  cbn [session_state resource_cache provider
       with_session with_provider with_cache] in *;
  repeat match goal with
    | H : session_state ?x = _ |- context [session_state ?x] => rewrite H
    | H : resource_cache ?x = _ |- context [resource_cache ?x] => rewrite H
    | H : context [<[?k:=_]> _ !! ?k] |- _ => rewrite lookup_insert_eq in H
    | H : context [<[?k:=_]> _ !! ?k'] |- _ =>
        rewrite (lookup_insert_ne _ k k') in H by discriminate
    | |- context [<[?k:=_]> _ !! ?k] => rewrite lookup_insert_eq
    | |- context [<[?k:=_]> _ !! ?k'] =>
        rewrite (lookup_insert_ne _ k k') by discriminate
    | H1 : ?x = Some ?a, H2 : ?x = Some ?b |- _ =>
        rewrite H1 in H2; injection H2 as <-
    | H1 : ?x = Some ?a, H2 : ?x = None |- _ => congruence
    | H : Some _ = Some _ |- _ => injection H as <-
    end.

Lemma init_key_lookup (ss : gmap string Val) (key k : string) :
  init_key ss key !! k
  = if decide (key = k) then Some (default VNone (ss !! key)) else ss !! k.
Proof.
  unfold init_key. destruct (decide (key = k)) as [->|Hne].
  - destruct (ss !! k) eqn:Hk; [done|]. by rewrite lookup_insert_eq.
  - destruct (ss !! key); [done|]. by rewrite lookup_insert_ne.
Qed.

Lemma init_keys_lookup (keys : list string) :
  forall (ss : gmap string Val) (k : string),
    foldl init_key ss keys !! k
    = if decide (k ∈ keys) then Some (default VNone (ss !! k)) else ss !! k.
Proof.
  induction keys as [|key keys IH]; intros ss k; cbn [foldl].
  - by rewrite decide_False by set_solver.
  - rewrite IH, init_key_lookup.
    destruct (decide (key = k)) as [->|Hne].
    + rewrite (decide_True (P := k ∈ k :: keys)) by set_solver.
      by destruct (decide (k ∈ keys)).
    + destruct (decide (k ∈ keys)).
      * by rewrite decide_True by set_solver.
      * by rewrite decide_False by set_solver.
Qed.

Lemma init_session_lookup (ss : gmap string Val) (k : string) :
  k ∈ SESSION_KEYS ->
  foldl init_key ss SESSION_KEYS !! k = Some (default VNone (ss !! k)).
Proof. intros Hk. by rewrite init_keys_lookup, decide_True. Qed.

Ltac wp_go :=
  repeat first
    [ wp_step
    | lazymatch goal with
      | |- wp (_extract_md_file_id _ _) _ _ =>
          apply wp_extract_md_file_id; intros ? ? ? ? ? ? ?
      | |- match ?r with Return _ => _ | Raise _ => _ end => destruct r
      end; cbv beta iota ].

Lemma Forall_event_impl (f g : Event -> bool) (b c : bool) (tr : list Event) :
  Forall (fun ev => f ev = b) tr ->
  (forall ev, f ev = b -> g ev = c) ->
  Forall (fun ev => g ev = c) tr.
Proof. intros Htr Himpl. eapply Forall_impl; eauto. Qed.

Ltac by_event_cases :=
  let ev := fresh "ev" in
  intros ev; destruct ev as [[] [?|] | [] | |]; cbn; congruence.

Ltac trace_forall :=
  repeat first
    [ apply Forall_nil_2
    | apply Forall_cons_2
    | apply Forall_app_2
    | done
    | apply String.eqb_refl
    | match goal with
      | H : Forall (fun ev => ?f ev = ?b) ?tr |- Forall _ ?tr =>
          apply (Forall_event_impl f _ b _ tr H); by_event_cases
      end ].



(** ** Thread reuse *)


Section Threads.
Context {P : Type} (client : Client P).



End Threads.


(** ** Preference of the attachment over the pattern *)

Lemma find_app {A} (f : A -> bool) (l1 l2 : list A) :
  List.find f (l1 ++ l2)
  = match List.find f l1 with
    | Some x => Some x
    | None => List.find f l2
    end.
Proof.
  induction l1 as [|x l1 IH]; [reflexivity|]. cbn. by destruct (f x).
Qed.

Lemma fallback_search_head (msgs : list Message) :
  fallback_search msgs
  = head (omap (fun msg => pattern_search (msg_str msg)) msgs).
Proof.
  induction msgs as [|msg rest IH]; [reflexivity|]. cbn.
  by destruct (pattern_search (msg_str msg)).
Qed.

Section ExtractionResult.
Context {P : Type} (client : Client P).

Lemma bind_result {A B} (m : M P A) (k : A -> M P B) (s : State P) :
  (bind m k s).1.1
  = match (m s).1.1 with
    | Return a => (k a (m s).1.2).1.1
    | Raise e => Raise e
    end.
Proof.
  unfold bind. destruct (m s) as [[[a|e] s1] tr1]; [|reflexivity].
  cbn. by destruct (k a s1) as [[r2 s2] tr2].
Qed.

Lemma scan_attachments_result (is_md : string -> bool) atts :
  (forall id, In id (attachment_ids atts) -> metadata_known client is_md id) ->
  forall s,
    (scan_attachments client atts s).1.1
    = Return (List.find is_md (attachment_ids atts)).
Proof.
  induction atts as [|att rest IH]; intros Hknown s; [reflexivity|].
  cbn [scan_attachments]. unfold attachment_ids in *.
  cbn [omap list_omap] in Hknown |- *.
  destruct (att_file_id att) as [id|]; [|by apply IH].
  destruct (String.eqb id EmptyString); [by apply IH|].
  rewrite bind_result. unfold call at 1.
  destruct (Hknown id (or_introl eq_refl) (provider s))
    as (file_obj & p' & Hc & Hmd).
  rewrite Hc. cbn [fst snd List.find]. rewrite <- Hmd.
  destruct (has_md_filename file_obj); [reflexivity|].
  apply IH. intros id' Hin. apply Hknown. by right.
Qed.

Lemma scan_messages_result (is_md : string -> bool) msgs :
  (forall id, In id (attachment_file_ids msgs) -> metadata_known client is_md id) ->
  forall s,
    (scan_messages client msgs s).1.1
    = Return (List.find is_md (attachment_file_ids msgs)).
Proof.
  induction msgs as [|msg rest IH]; intros Hknown s; [reflexivity|].
  change (attachment_file_ids (msg :: rest))
    with (message_file_ids msg ++ attachment_file_ids rest) in *.
  assert (Hrest : forall s', (scan_messages client rest s').1.1
                             = Return (List.find is_md (attachment_file_ids rest))).
  { apply IH. intros id Hin. apply Hknown, in_or_app. by right. }
  assert (Hhere : forall id, In id (message_file_ids msg) ->
                             metadata_known client is_md id).
  { intros id Hin. apply Hknown, in_or_app. by left. }
  cbn [scan_messages]. rewrite bind_result, find_app.
  unfold message_file_ids in *.
  destruct (attachments msg) as [atts|].
  - rewrite (scan_attachments_result is_md atts Hhere).
    destruct (List.find is_md (attachment_ids atts)); [reflexivity | apply Hrest].
  - cbn. apply Hrest.
Qed.

Lemma extract_md_file_id_result (thread : Thread) (s : State P)
    (msgs : list Message) (p : P) (is_md : string -> bool) :
  client (MessagesList (thread_id thread)) (provider s) = (Ok msgs, p) ->
  (forall id, In id (attachment_file_ids msgs) ->
              metadata_known client is_md id) ->
  (_extract_md_file_id client thread s).1.1
  = Return (preferred_report_id is_md msgs).
Proof.
  intros Hlist Hknown. unfold _extract_md_file_id, preferred_report_id.
  rewrite bind_result. unfold call at 1. rewrite Hlist. cbn [fst snd].
  rewrite bind_result, (scan_messages_result is_md msgs Hknown).
  destruct (List.find is_md (attachment_file_ids msgs)) as [id|];
    [reflexivity|].
  cbn. by rewrite fallback_search_head.
Qed.

Lemma wp_extract_known (thread : Thread) (s : State P) (msgs : list Message)
    (p : P) (is_md : string -> bool) Q :
  client (MessagesList (thread_id thread)) (provider s) = (Ok msgs, p) ->
  (forall id, In id (attachment_file_ids msgs) ->
              metadata_known client is_md id) ->
  (forall s1 tr,
     session_state s1 = session_state s ->
     resource_cache s1 = resource_cache s ->
     Forall (fun ev => is_lookup_call ev = true) tr ->
     Q (Return (preferred_report_id is_md msgs)) s1 tr) ->
  wp (_extract_md_file_id client thread) Q s.
Proof.
  intros Hlist Hknown HQ. apply wp_run.
  rewrite (extract_md_file_id_result thread s msgs p is_md Hlist Hknown).
  eapply (wp_run (_extract_md_file_id client thread)
            (fun _ s1 tr => Q (Return (preferred_report_id is_md msgs)) s1 tr)).
  apply wp_extract_md_file_id. intros r s1 tr Hs Hcache Htr _. by apply HQ.
Qed.

(** C3. The extraction returns the identifier of the first attachment, over
    all listed messages, whose retrieved metadata has a filename ending in
    [.md]; only when no message has one does it return the first match of
    the pattern in the string form of a message.  So an attachment-based
    Markdown file wins over any pattern match. *)
Theorem extract_prefers_attachment (thread : Thread) (s : State P)
    (msgs : list Message) (p : P) (is_md : string -> bool) :
  client (MessagesList (thread_id thread)) (provider s) = (Ok msgs, p) ->
  (forall id, In id (attachment_file_ids msgs) ->
              metadata_known client is_md id) ->
  (_extract_md_file_id client thread s).1.1
    = Return (preferred_report_id is_md msgs) /\
  (forall id, List.find is_md (attachment_file_ids msgs) = Some id ->
     (_extract_md_file_id client thread s).1.1 = Return (Some id)).
Proof.
  intros Hlist Hknown.
  pose proof (extract_md_file_id_result thread s msgs p is_md Hlist Hknown)
    as Hres.
  split; [exact Hres|].
  intros id Hfind. rewrite Hres. unfold preferred_report_id. by rewrite Hfind.
Qed.

End ExtractionResult.

Lemma extract_prefers_attachment_witness :
  (_extract_md_file_id demo_client {| thread_id := "thread_1" |} fresh_state).1.1
  = Return (Some "file-Md42") /\
  fallback_search demo_messages = Some "file-Txt9".
Proof.
  split; [|reflexivity].
  refine (proj2 (extract_prefers_attachment demo_client _ fresh_state
                   demo_messages 1 (fun id => String.eqb id "file-Md42") _ _)
                "file-Md42" _).
  - reflexivity.
  - intros id Hin p. exists (demo_metadata id), (S p). split; [reflexivity|].
    unfold has_md_filename, demo_metadata. cbn [filename].
    cbn in Hin. destruct Hin as [<-|[<-|[]]]; reflexivity.
  - reflexivity.
Defined.

(** ** Report not found *)

Lemma find_never {A} (l : list A) : List.find (fun _ => false) l = None.
Proof. by induction l. Qed.

Section Frames.
Context {P : Type} (client : Client P).

Lemma wp_elim {A} (m : M P A) Q s r s1 tr :
  m s = (r, s1, tr) -> wp m Q s -> Q r s1 tr.
Proof. unfold wp. by intros ->. Qed.

Lemma wp_intro {A} (m : M P A) (Q : Res A -> State P -> list Event -> Prop)
    s r s1 tr :
  m s = (r, s1, tr) -> Q r s1 tr -> wp m Q s.
Proof. unfold wp. by intros ->. Qed.

(** Obtaining the assistant touches the cache and the provider only, and
    issues at most the creation request. *)
Lemma get_or_create_assistant_frame (s : State P) :
  wp (_get_or_create_assistant client)
     (fun _ (s0 : State P) (tr : list Event) =>
        session_state s0 = session_state s /\
        Forall (fun ev => is_assistant_create ev = true) tr) s.
Proof. wp_go; simpl_state; split; trace_forall. Qed.

(** Steps 1-5 leave the report keys alone, fetch no file content and show
    no error. *)
Lemma run_analysis_frame zip prompt a (s : State P) :
  wp (run_analysis client zip prompt a)
     (fun _ (s1 : State P) (tr : list Event) =>
        (forall k, k ∈ REPORT_KEYS ->
                   session_state s1 !! k = session_state s !! k) /\
        Forall (fun ev => is_content_fetch ev = false) tr /\
        Forall (fun ev => is_st_error ev = false) tr) s.
Proof.
  unfold run_analysis. wp_go; simpl_state.
  all: split; [|split; trace_forall].
  all: intros k Hk; simpl_state.
  all: repeat (rewrite lookup_insert_ne; [|intros <-; set_solver]); done.
Qed.

(** C4. When the run has reached its end but no listed message carries a
    Markdown attachment and no message text matches the pattern, the script
    shows the not-found error and stops in a controlled way
    ([StopException], not an uncaught error), requests no file content, and
    leaves the report keys of the session as they were: empty when they were
    empty. *)
Theorem report_not_found (inp : Inputs) (zip : UploadedFile) (s s0 s1 : State P)
    (a : Assistant) (tr0 tr1 : list Event) (thread : Thread)
    (msgs : list Message) (p : P) :
  run_btn inp = true ->
  zip_file inp = Some zip ->
  _get_or_create_assistant client s = (Return a, s0, tr0) ->
  run_analysis client zip (user_prompt inp) a
    (with_session (foldl init_key (session_state s0) SESSION_KEYS) s0)
    = (Return thread, s1, tr1) ->
  client (MessagesList (thread_id thread)) (provider s1) = (Ok msgs, p) ->
  (forall id, In id (attachment_file_ids msgs) ->
              metadata_known client (fun _ => false) id) ->
  (forall msg, In msg msgs -> pattern_search (msg_str msg) = None) ->
  wp (script client inp)
     (fun r (s2 : State P) (tr : list Event) =>
        r = Raise StopException /\
        (exists lookups,
           tr = tr0 ++ tr1 ++ lookups ++ [Ui (StError NOT_FOUND_MESSAGE)] /\
           Forall (fun ev => is_lookup_call ev = true) lookups) /\
        Forall (fun ev => is_content_fetch ev = false) tr /\
        (forall k, k ∈ REPORT_KEYS ->
           session_state s2 !! k = Some (default VNone (session_state s !! k))))
     s.
Proof.
  intros Hbtn Hzip Ha Hrun Hlist Hknown Hnomatch.
  pose proof (wp_elim _ _ _ _ _ _ Ha (get_or_create_assistant_frame s))
    as [Hs0 Htr0].
  pose proof (wp_elim _ _ _ _ _ _ Hrun (run_analysis_frame _ _ _ _))
    as (Hkeys & Hfetch1 & _).
  assert (Hpref : preferred_report_id (fun _ => false) msgs = None).
  { unfold preferred_report_id.
    rewrite find_never.
    clear -Hnomatch. induction msgs as [|msg rest IH]; [reflexivity|].
    cbn. rewrite (Hnomatch msg (or_introl eq_refl)).
    apply IH. intros msg' Hin. apply Hnomatch. by right. }
  unfold script. apply wp_bind. eapply wp_intro; [exact Ha|].
  cbv beta iota. wp_step. wp_step.
  rewrite Hbtn, Hzip. wp_step. wp_step. unfold main_flow. wp_step.
  eapply wp_intro; [exact Hrun|]. cbv beta iota.
  unfold locate_report. wp_step.
  eapply wp_extract_known; [exact Hlist | exact Hknown |].
  intros s2 lookups Hs2 _ Hlookups. rewrite Hpref. wp_go.
  split; [done|]. split; [|split].
  - exists lookups. split; [|done]. by rewrite !app_nil_r.
  - trace_forall.
  - intros k Hk. rewrite Hs2, Hkeys by done. simpl_state.
    rewrite init_session_lookup; [by rewrite ?Hs0|].
    unfold REPORT_KEYS, SESSION_KEYS in *. set_solver.
Qed.

End Frames.

Lemma report_not_found_witness :
  wp (script bare_client click_analyse)
     (fun r (s2 : State nat) (tr : list Event) =>
        r = Raise StopException /\
        Forall (fun ev => is_content_fetch ev = false) tr /\
        forall k, k ∈ REPORT_KEYS -> session_state s2 !! k = Some VNone)
     fresh_state.
Proof.
  eapply wp_mono;
    [| eapply (report_not_found bare_client click_analyse demo_zip fresh_state);
       [reflexivity | reflexivity | reflexivity | reflexivity | reflexivity | | ] ].
  - intros r s2 tr (Hr & _ & Hfetch & Hkeys). split; [exact Hr|].
    split; [exact Hfetch|]. intros k Hk. by rewrite (Hkeys k Hk).
  - intros id Hin p. exists (demo_metadata id), (S p). split; [reflexivity|].
    cbn in Hin. destruct Hin as [<-|[]]. reflexivity.
  - intros msg Hin. cbn in Hin. destruct Hin as [<-|[<-|[]]]; reflexivity.
Defined.

(** ** Reset *)

Lemma lookup_delete_keys (keys : list string) :
  forall (ss : gmap string Val) (k : string),
    foldl (fun m key => delete key m) ss keys !! k
    = if decide (k ∈ keys) then None else ss !! k.
Proof.
  induction keys as [|key keys IH]; intros ss k; cbn [foldl].
  - by rewrite decide_False by set_solver.
  - rewrite IH. destruct (decide (k ∈ keys)) as [Hin|Hnin].
    + by rewrite decide_True by set_solver.
    + destruct (decide (key = k)) as [->|Hne].
      * rewrite decide_True by set_solver. apply lookup_delete_eq.
      * rewrite decide_False by set_solver. by apply lookup_delete_ne.
Qed.

(** Deleting every key of the dictionary leaves the empty dictionary. *)
Lemma delete_all_keys_empty (ss : gmap string Val) : delete_all_keys ss = ∅.
Proof.
  apply map_eq. intros k. unfold delete_all_keys.
  rewrite lookup_delete_keys, lookup_empty.
  destruct (decide (k ∈ (map_to_list ss).*1)) as [Hin|Hnin]; [done|].
  destruct (ss !! k) as [v|] eqn:Hk; [|done].
  exfalso. apply Hnin. apply list_elem_of_fmap. exists (k, v).
  split; [done|]. by apply elem_of_map_to_list.
Qed.

Section Reset.
Context {P : Type} (client : Client P).

(** C6. Whatever the deletion requests do, and whether or not the name
    [md_file_id] is bound, the reset handler ends with the rerun request in
    a state whose session dictionary is empty, as in a brand-new session
    (the next execution sets the five keys to [None]); an error raised on
    the way is only printed. *)
Theorem reset_clears_session (md_file_id : option (option string))
    (s : State P) :
  wp (reset_session client md_file_id)
     (fun r (s1 : State P) (tr : list Event) =>
        r = Raise RerunException /\
        session_state s1 = ∅ /\
        (forall k, k ∈ SESSION_KEYS ->
           foldl init_key (session_state s1) SESSION_KEYS !! k = Some VNone) /\
        (forall req msg, In (Call req (Some msg)) tr ->
           In (Print ("Cleanup error: " +:+ msg)) tr)) s.
Proof.
  unfold reset_session. wp_go; simpl_state.
  all: rewrite delete_all_keys_empty.
  all: split; [done|]; split; [done|]; split;
    [intros k Hk; by rewrite init_session_lookup|].
  all: intros req msg' Hin; cbn [app In] in *.
  all: cbn [exn_str];
    repeat (destruct Hin as [Hin|Hin]); try discriminate Hin; try done.
  all: simplify_eq; auto 10.
Qed.

(** An execution in which the analysis button was not clicked, as is every
    execution started by a click on the reset button, never requests the
    deletion of the thread and requests at most one file deletion: the name
    [md_file_id] is unbound there, and reading it ends the clean-up. *)
Lemma reset_without_run_skips_deletions (inp : Inputs) (s : State P) :
  run_btn inp = false ->
  wp (script client inp)
     (fun _ (s1 : State P) (tr : list Event) =>
        Forall (fun ev => is_thread_delete ev = false) tr /\
        length (List.filter is_file_delete tr) <= 1) s.
Proof.
  intros Hrun. unfold script. rewrite Hrun.
  unfold preview_and_download, decode, reset_session.
  wp_go; simpl_state; try discriminate.
  all: split; [trace_forall | cbn; lia].
Qed.

End Reset.

(** C5 (the code departs from the claim). A click on the reset button of a
    session that holds an archive handle, a report and a thread: the only
    provider request is the deletion of the archive; the clean-up then stops
    on the unbound name [md_file_id], so neither the report file nor the
    thread is deleted, and the session is cleared all the same. *)
Lemma reset_click_deletes_archive_only :
  let '(r, s1, tr) := script demo_client click_reset finished_state in
  r = Raise RerunException /\
  session_state s1 = ∅ /\
  requests tr = [FilesDelete (VStr "file-Zip1")] /\
  prints tr = ["Cleanup error: name 'md_file_id' is not defined"].
Proof. vm_compute. repeat split. Qed.

(** ** Archive handle and assistant registry *)

Section Archive.
Context {P : Type} (client : Client P).

(** C9. When the upload of a run succeeds, the session's archive key holds
    the new handle whatever it held before, however the run continues; the
    run requests no deletion, so the superseded handle is not deleted; and
    no key beside the five session keys is written, so the archive and the
    report each live under one key. *)
Theorem upload_replaces_archive_handle (zip : UploadedFile) (prompt : string)
    (a : Assistant) (s : State P) (f : FileObject) (p : P) :
  client (FilesCreate zip "assistants") (provider s) = (Ok f, p) ->
  wp (main_flow client zip prompt a)
     (fun _ (s1 : State P) (tr : list Event) =>
        session_state s1 !! "file_id" = Some (VStr (file_id f)) /\
        Forall (fun ev => is_delete_call ev = false) tr /\
        (forall k, k ∉ SESSION_KEYS ->
                   session_state s1 !! k = session_state s !! k)) s.
Proof.
  intros Hupload. unfold main_flow, run_analysis, locate_report.
  wp_go; simpl_state; try congruence.
  all: split; [congruence|]; split; [trace_forall|].
  all: intros k Hk; unfold SESSION_KEYS in Hk.
  all: repeat (rewrite lookup_insert_ne; [|intros <-; set_solver]); done.
Qed.

End Archive.

Lemma upload_replaces_archive_handle_witness :
  let s := (script demo_client click_analyse fresh_state).1.2 in
  session_state s !! "file_id" = Some (VStr "file-Zip1") /\
  session_state
    (main_flow (simulated_client
                  (Ok {| file_id := "file-Zip2"; filename := Some "demo.zip" |})
                  demo_messages)
       demo_zip DEFAULT_PROMPT {| assistant_id := "asst_1" |} s).1.2
  !! "file_id" = Some (VStr "file-Zip2").
Proof.
  split; [reflexivity|].
  exact (proj1 (proj1 (wp_run _ _ _)
           (upload_replaces_archive_handle
              (simulated_client
                 (Ok {| file_id := "file-Zip2"; filename := Some "demo.zip" |})
                 demo_messages)
              demo_zip DEFAULT_PROMPT {| assistant_id := "asst_1" |}
              (script demo_client click_analyse fresh_state).1.2
              {| file_id := "file-Zip2"; filename := Some "demo.zip" |}
              _ eq_refl))).
Defined.

Section Registry.
Context {P : Type} (client : Client P).

Lemma main_flow_assistant zip prompt a (s : State P) :
  wp (main_flow client zip prompt a)
     (fun _ (s1 : State P) (tr : list Event) =>
        resource_cache s1 = resource_cache s /\
        Forall (fun ev => is_assistant_create ev = false) tr /\
        Forall (fun ev => runs_with a ev = true) tr) s.
Proof.
  unfold main_flow, run_analysis, locate_report.
  wp_go; simpl_state; repeat split; trace_forall.
Qed.

Lemma preview_assistant inp md a (s : State P) :
  wp (preview_and_download client inp md)
     (fun _ (s1 : State P) (tr : list Event) =>
        resource_cache s1 = resource_cache s /\
        Forall (fun ev => is_assistant_create ev = false) tr /\
        Forall (fun ev => runs_with a ev = true) tr) s.
Proof.
  unfold preview_and_download, decode, reset_session.
  wp_go; simpl_state; repeat split; trace_forall.
Qed.

(** C8. The first call of the registry creates the assistant with the fixed
    configuration and stores the returned handle in the process-wide cache
    (nothing is stored when the creation fails); from then on every call
    returns the stored handle without any request, and every execution of
    the script keeps the cache, issues no creation request and streams its
    runs with that handle. *)
Theorem assistant_created_once (s : State P) :
  wp (_get_or_create_assistant client)
     (fun r (s1 : State P) (tr : list Event) =>
        match r with
        | Return a =>
            resource_cache s1 = Some a /\
            (resource_cache s = None ->
             tr = [Call (AssistantsCreate ASSISTANT_CONFIG) None]) /\
            (forall s2 : State P,
               resource_cache s2 = Some a ->
               _get_or_create_assistant client s2 = (Return a, s2, [])) /\
            (forall inp (s2 : State P),
               resource_cache s2 = Some a ->
               wp (script client inp)
                  (fun _ (s3 : State P) (tr3 : list Event) =>
                     resource_cache s3 = Some a /\
                     Forall (fun ev => is_assistant_create ev = false) tr3 /\
                     Forall (fun ev => runs_with a ev = true) tr3) s2)
        | Raise _ => resource_cache s1 = resource_cache s /\ resource_cache s = None
        end) s.
Proof.
  assert (Hhit : forall a (s2 : State P),
             resource_cache s2 = Some a ->
             _get_or_create_assistant client s2 = (Return a, s2, [])).
  { intros a s2 Hc. unfold _get_or_create_assistant, cache_resource.
    by rewrite Hc. }
  assert (Hscript : forall a inp (s2 : State P),
             resource_cache s2 = Some a ->
             wp (script client inp)
                (fun _ (s3 : State P) (tr3 : list Event) =>
                   resource_cache s3 = Some a /\
                   Forall (fun ev => is_assistant_create ev = false) tr3 /\
                   Forall (fun ev => runs_with a ev = true) tr3) s2).
  { intros a inp s2 Hc. unfold script. apply wp_bind.
    eapply wp_intro; [by apply Hhit|]. cbv beta iota. wp_go.
    all: try (eapply wp_mono; [|apply (main_flow_assistant _ _ a)]).
    all: try (intros [id|e] s3 tr3 (Hc3 & Hno3 & Hruns3); wp_go).
    all: try (eapply wp_mono; [|apply (preview_assistant _ _ a)]).
    all: try (intros r4 s4 tr4 (Hc4 & Hno4 & Hruns4)).
    all: simpl_state; repeat split; first [congruence | trace_forall]. }
  wp_go; simpl_state.
  - split; [done|]. split; [intros ?; congruence|].
    split; [by apply Hhit | by apply Hscript].
  - split; [done|]. split; [done|].
    split; [by apply Hhit | by apply Hscript].
  - done.
Qed.

End Registry.

(** ** Provider errors *)

Lemma error_outcome_app {A} (r : Res A) (tr1 tr2 : list Event) :
  Forall (fun ev => harmless ev = true) tr1 ->
  error_outcome r tr2 ->
  error_outcome r (tr1 ++ tr2).
Proof.
  intros H1 H2.
  assert (Hall : Forall (fun ev => harmless ev = true) tr2 ->
                 Forall (fun ev => harmless ev = true) (tr1 ++ tr2))
    by (by apply Forall_app_2).
  destruct r as [a|[msg| | | | |]]; cbn in *; auto.
  destruct H2 as (req & tr0 & -> & Hreq & H0).
  exists req, (tr1 ++ tr0). rewrite app_assoc.
  split; [done|]. split; [done|]. by apply Forall_app_2.
Qed.

Lemma lookup_error_outcome {A} (r : Res A) (tr : list Event) :
  Forall (fun ev => is_lookup_call ev = true) tr ->
  request_outcome r tr ->
  error_outcome r tr /\
  (forall e, r = Raise e -> exists msg, e = APIError msg).
Proof.
  intros Hlookup Hr. destruct r as [a|e]; cbn in Hr.
  - split; [|discriminate]. cbn. trace_forall.
  - destruct Hr as (req & msg & tr0 & -> & -> & H0).
    split; [|intros e [= <-]; eauto]. cbn.
    exists req, tr0. split; [done|].
    apply Forall_app in Hlookup as [_ Hlast].
    apply Forall_cons in Hlast as [Hlast _].
    split; [by destruct req | trace_forall].
Qed.

(** Closes [error_outcome r tr] for a concrete result [r] and a trace given
    as a concatenation. *)
Ltac error_outcome_solver :=
  cbn [error_outcome];
  lazymatch goal with
  | |- exists _ _, _ =>
      first
        [ eexists _, []; split; [reflexivity|]
        | eexists _, _; split;
          [rewrite ?app_nil_r, ?app_assoc; reflexivity|] ];
      split; [ first [reflexivity | by_lookup] | trace_forall ]
  | |- _ => trace_forall
  end
with by_lookup :=
  match goal with
  | H : is_lookup_call (Call ?req _) = true |- is_delete ?req = false =>
      by destruct req
  end.

Ltac use_request_outcome :=
  repeat match goal with
    | H : request_outcome (Return _) _ |- _ => cbn [request_outcome] in H
    | H : request_outcome (Raise _) ?tr, Hl : Forall _ ?tr |- _ =>
        let Hlast := fresh "Hlast" in
        destruct H as (? & ? & ? & -> & -> & ?);
        apply Forall_app in Hl as [Hl Hlast];
        apply Forall_cons in Hlast as [Hlast _]
    end.

Section Errors.
Context {P : Type} (client : Client P).

Lemma main_flow_errors zip prompt a (s : State P) :
  wp (main_flow client zip prompt a)
     (fun r (s1 : State P) (tr : list Event) =>
        error_outcome r tr /\
        (forall msg, r = Raise (APIError msg) ->
           Forall (fun ev => is_st_error ev = false) tr /\
           (forall k, k ∈ REPORT_KEYS ->
              session_state s1 !! k = session_state s !! k))) s.
Proof.
  unfold main_flow, run_analysis, locate_report.
  wp_go; use_request_outcome; simpl_state.
  all: split; [error_outcome_solver|].
  all: intros msg' Hmsg'; try discriminate Hmsg'.
  all: split; [trace_forall|].
  all: intros k Hk; unfold REPORT_KEYS in Hk.
  all: repeat (rewrite lookup_insert_ne; [|intros <-; set_solver]); done.
Qed.

Lemma preview_errors inp md (s : State P) :
  wp (preview_and_download client inp md)
     (fun r (s1 : State P) (tr : list Event) =>
        error_outcome r tr /\ forall msg, r <> Raise (APIError msg)) s.
Proof.
  unfold preview_and_download, decode, reset_session.
  wp_go; simpl_state.
  all: split; [error_outcome_solver | done].
Qed.

Lemma wp_conj {A} (m : M P A) (Q1 Q2 : Res A -> State P -> list Event -> Prop) s :
  wp m Q1 s -> wp m Q2 s -> wp m (fun r s1 tr => Q1 r s1 tr /\ Q2 r s1 tr) s.
Proof. unfold wp. destruct (m s) as [[r s1] tr]. by split. Qed.

(** However the run ends, the archive and thread keys hold what steps 1
    and 2 stored. *)
Lemma main_flow_identifiers zip prompt a (s : State P) :
  wp (main_flow client zip prompt a)
     (fun _ (s1 : State P) (tr : list Event) =>
        session_state s1 !! "file_id" = archive_id_stored client zip s /\
        session_state s1 !! "thread_id" = thread_id_stored client zip s) s.
Proof.
  unfold main_flow, run_analysis, locate_report, archive_id_stored,
    thread_id_stored.
  wp_go; cbn [session_state with_session with_provider provider] in *.
  all: repeat match goal with
         | H : client _ _ = _ |- _ => rewrite H
         end.
  all: simpl_state.
  all: repeat match goal with
         | H : session_state _ !! _ = _ |- _ => rewrite H
         | H : is_None _ = _ |- _ => rewrite H
         end.
  all: try done.
Qed.

Lemma get_or_create_assistant_errors (s : State P) :
  wp (_get_or_create_assistant client)
     (fun r (s0 : State P) (tr : list Event) =>
        session_state s0 = session_state s /\
        error_outcome r tr /\
        Forall (fun ev => is_st_error ev = false) tr /\
        forall e, r = Raise e -> exists msg, e = APIError msg) s.
Proof.
  wp_go; simpl_state.
  all: split; [done|]; split; [error_outcome_solver|].
  all: split; [trace_forall|]; intros e' He'; try discriminate He'.
  injection He' as <-. by eexists.
Qed.

(** C7, as the code has it. No statement of the script catches a provider
    error outside the clean-up of the reset: when a request other than a
    clean-up deletion fails, the execution ends there with that API error
    uncaught (the failed request is its last effect, so the run is aborted
    and nothing is retried), the script shows no error message, and the
    session is left as the completed steps made it: the report keys are as
    they were, and in a run the archive key holds the handle the provider
    answered to the upload and the thread key the identifier of the thread
    it created, each key keeping what it held when that step was not
    reached, failed or, for the thread, was a retrieval.  When it is the
    creation of the assistant that fails, the session is untouched.
    Conversely an execution ends with an API error only in that way. *)
Theorem provider_error_propagates (inp : Inputs) (s : State P) :
  wp (script client inp)
     (fun r (s1 : State P) (tr : list Event) =>
        error_outcome r tr /\
        (forall msg, r = Raise (APIError msg) ->
           Forall (fun ev => is_st_error ev = false) tr /\
           (forall k, k ∈ REPORT_KEYS ->
              default VNone (session_state s1 !! k)
              = default VNone (session_state s !! k)) /\
           match _get_or_create_assistant client s with
           | (Return _, s_a, _) =>
               exists zip,
                 run_btn inp = true /\ zip_file inp = Some zip /\
                 let s0 := with_session
                             (foldl init_key (session_state s_a) SESSION_KEYS)
                             s_a in
                 session_state s1 !! "file_id"
                 = archive_id_stored client zip s0 /\
                 session_state s1 !! "thread_id"
                 = thread_id_stored client zip s0
           | (Raise _, _, _) => session_state s1 = session_state s
           end)) s.
Proof.
  assert (Hinit : forall k, k ∈ REPORT_KEYS ->
            default VNone (foldl init_key (session_state s) SESSION_KEYS !! k)
            = default VNone (session_state s !! k)).
  { intros k Hk. rewrite init_session_lookup; [done|].
    unfold REPORT_KEYS, SESSION_KEYS in *. set_solver. }
  destruct (_get_or_create_assistant client s) as [[ra s_a] tr_a] eqn:Hget.
  pose proof (wp_elim _ _ _ _ _ _ Hget (get_or_create_assistant_errors s))
    as (Hs_a & Hout_a & Hno_a & Hapi_a).
  unfold script. apply wp_bind. eapply wp_intro; [exact Hget|].
  destruct ra as [a|e]; cbv beta iota.
  - cbn [error_outcome] in Hout_a. wp_go.
    all: try (eapply wp_mono;
              [|apply wp_conj;
                [apply main_flow_errors | apply main_flow_identifiers]]).
    all: try (intros [id|e] s1 tr1 ((Hout1 & Herr1) & Hfile1 & Hthread1); wp_go).
    all: try (eapply wp_mono; [|apply preview_errors]).
    all: try (intros r2 s2 tr2 (Hout2 & Hnot2)).
    all: simpl_state.
    all: split;
      [ try solve [ cbn [error_outcome] in Hout1;
                repeat (apply error_outcome_app; [trace_forall|]); done
              | repeat (apply error_outcome_app; [trace_forall|]); done
              | error_outcome_solver ] |].
    all: intros msg' Hmsg'; try (by destruct (Hnot2 msg')).
    all: injection Hmsg' as ->.
    all: destruct (Herr1 msg' eq_refl) as [Hno1 Hkeys1].
    all: split; [trace_forall|].
    all: cbn [session_state with_session] in Hkeys1.
    all: rewrite Hs_a in Hkeys1, Hfile1, Hthread1.
    all: split; [intros k Hk; rewrite Hkeys1 by done; by apply Hinit|].
    all: by eexists.
  - destruct (Hapi_a e eq_refl) as [msg ->]. split; [done|].
    intros msg' [= <-]. split; [done|]. split; [|done].
    intros k Hk. by rewrite Hs_a.
Qed.

End Errors.

(** C7, as the claim states it, fails: a failing upload is not turned into
    a message; the execution ends with the API error uncaught and the page
    shows no error. *)
Lemma upload_error_is_not_caught :
  let '(r, s1, tr) := script failing_upload_client click_analyse fresh_state in
  r = Raise (APIError "Connection error.") /\
  Forall (fun ev => is_st_error ev = false) tr.
Proof. vm_compute. split; [reflexivity | repeat constructor]. Qed.

(** ** Completion flag and report *)

Lemma session_inv_elim (ss : gmap string Val) (v : Val) :
  session_inv ss ->
  ss !! "run_finished" = Some v ->
  truthy v = true ->
  exists b,
    ss !! "report_bytes" = Some (VBytes b) /\
    ss !! "report_name" = Some (VStr REPORT_NAME).
Proof.
  intros Hinv Hv Htruthy. apply Hinv. unfold run_finished_set. by rewrite Hv.
Qed.

Lemma session_inv_empty : session_inv ∅.
Proof. intros Hset. discriminate Hset. Qed.

Lemma session_inv_init (ss : gmap string Val) :
  session_inv ss -> session_inv (foldl init_key ss SESSION_KEYS).
Proof.
  intros Hinv Hset. unfold run_finished_set in Hset.
  rewrite !init_session_lookup by (unfold SESSION_KEYS; set_solver).
  rewrite init_session_lookup in Hset by (unfold SESSION_KEYS; set_solver).
  destruct (ss !! "run_finished") as [v|] eqn:Hv; [|discriminate Hset].
  destruct (session_inv_elim ss v Hinv Hv Hset) as (b & -> & ->). by exists b.
Qed.

Lemma keys_present_init (ss : gmap string Val) :
  keys_present (foldl init_key ss SESSION_KEYS).
Proof. intros k Hk. by rewrite init_session_lookup. Qed.

Lemma keys_present_insert (ss : gmap string Val) (key : string) (v : Val) :
  keys_present ss -> keys_present (<[key:=v]> ss).
Proof.
  intros Hkeys k Hk. destruct (decide (key = k)) as [->|Hne].
  - by rewrite lookup_insert_eq.
  - rewrite lookup_insert_ne by done. by apply Hkeys.
Qed.

(** Writing a key that is neither the flag nor a report key keeps the
    invariant. *)
Lemma session_inv_insert_other (ss : gmap string Val) (key : string) (v : Val) :
  key ∉ REPORT_KEYS ->
  session_inv ss -> session_inv (<[key:=v]> ss).
Proof.
  unfold REPORT_KEYS. intros Hkey Hinv Hset. unfold run_finished_set in Hset.
  rewrite lookup_insert_ne in Hset by (intros ->; set_solver).
  rewrite !lookup_insert_ne by (intros ->; set_solver).
  by apply Hinv.
Qed.

(** Lines 207-209 establish the invariant whatever the session held. *)
Lemma session_inv_report (ss : gmap string Val) (b : bytes) :
  session_inv
    (<["run_finished":=VBool true]>
     (<["report_name":=VStr REPORT_NAME]>
      (<["report_bytes":=VBytes b]> ss))).
Proof.
  intros _. exists b.
  rewrite !lookup_insert_ne by done. rewrite lookup_insert_eq.
  rewrite lookup_insert_ne by done. by rewrite lookup_insert_eq.
Qed.

Ltac ready_solver :=
  repeat first
    [ assumption
    | apply session_inv_report
    | apply session_inv_insert_other; [unfold REPORT_KEYS; set_solver|]
    | apply keys_present_insert ].

Lemma no_download_in (tr : list Event) label data name mime :
  Forall (fun ev => is_download ev = false) tr ->
  ~ In (Ui (StDownloadButton label data name mime)) tr.
Proof.
  intros Hall Hin. rewrite Forall_forall in Hall.
  apply list_elem_of_In, Hall in Hin. discriminate.
Qed.

Section Completion.
Context {P : Type} (client : Client P).

Lemma main_flow_ready zip prompt a (s : State P) :
  keys_present (session_state s) ->
  session_inv (session_state s) ->
  wp (main_flow client zip prompt a)
     (fun r (s1 : State P) (tr : list Event) =>
        keys_present (session_state s1) /\
        session_inv (session_state s1) /\
        (forall name, r <> Raise (AttributeError name)) /\
        Forall (fun ev => is_download ev = false) tr) s.
Proof.
  intros Hkeys Hinv.
  assert (Hthread := Hkeys "thread_id" ltac:(unfold SESSION_KEYS; set_solver)).
  unfold main_flow, run_analysis, locate_report.
  wp_go; use_request_outcome; simpl_state.
  all: try match goal with
         | H : _ !! "thread_id" = None |- _ =>
             rewrite H in Hthread; by destruct Hthread
         end.
  all: try congruence.
  all: split; [ready_solver|]; split; [ready_solver|].
  all: split; [intros ? ?; discriminate|].
  all: trace_forall.
Qed.

Lemma preview_ready inp md (s : State P) :
  keys_present (session_state s) ->
  session_inv (session_state s) ->
  wp (preview_and_download client inp md)
     (fun r (s1 : State P) (tr : list Event) =>
        session_inv (session_state s1) /\
        (forall name, r <> Raise (AttributeError name)) /\
        (reset_btn inp = false -> s1 = s) /\
        (forall label data name mime,
           In (Ui (StDownloadButton label data name mime)) tr ->
           run_finished_set (session_state s) = true /\
           session_state s !! "report_bytes" = Some data /\
           session_state s !! "report_name" = Some name /\
           name = VStr REPORT_NAME /\
           exists b, data = VBytes b)) s.
Proof.
  intros Hkeys Hinv.
  assert (Hk : forall k, k ∈ SESSION_KEYS -> session_state s !! k <> None).
  { intros k Hin Hnone. destruct (Hkeys k Hin) as [v Hv]. congruence. }
  assert (Hk1 := Hk "run_finished" ltac:(unfold SESSION_KEYS; set_solver)).
  assert (Hk2 := Hk "report_bytes" ltac:(unfold SESSION_KEYS; set_solver)).
  assert (Hk3 := Hk "report_name" ltac:(unfold SESSION_KEYS; set_solver)).
  unfold preview_and_download, decode, reset_session.
  wp_go; simpl_state; try done.
  all: try match goal with
         | Hrf : _ !! "run_finished" = Some ?v, Ht : truthy ?v = true |- _ =>
             let b := fresh "b" in
             destruct (session_inv_elim _ v Hinv Hrf Ht) as (b & ? & ?)
         end.
  all: try congruence.
  all: rewrite ?delete_all_keys_empty.
  all: split; [first [assumption | apply session_inv_empty]|].
  all: split; [intros ? ?; discriminate|].
  all: split; [first [reflexivity | intros ?; congruence]|].
  all: intros label data name mime Hin; cbn [app In] in Hin.
  all: repeat (destruct Hin as [Hin|Hin]); try discriminate Hin; try done.
  all: simplify_eq.
  all: unfold run_finished_set.
  all: repeat match goal with
         | H : session_state _ !! _ = Some _ |- _ => rewrite H; clear H
         end.
  all: eauto 10.
Qed.

Lemma script_ready (inp : Inputs) (s : State P) :
  session_inv (session_state s) ->
  wp (script client inp)
     (fun r (s1 : State P) (tr : list Event) =>
        session_inv (session_state s1) /\
        (forall name, r <> Raise (AttributeError name)) /\
        (forall label data name mime,
           In (Ui (StDownloadButton label data name mime)) tr ->
           name = VStr REPORT_NAME /\
           (exists b, data = VBytes b) /\
           (reset_btn inp = false ->
            run_finished_set (session_state s1) = true /\
            session_state s1 !! "report_bytes" = Some data /\
            session_state s1 !! "report_name" = Some name))) s.
Proof.
  intros Hinv. unfold script. wp_go.
  all: try (eapply wp_mono;
            [|apply main_flow_ready;
              [apply keys_present_init | by apply session_inv_init]]).
  all: try (intros [id|e] s1 tr1 (Hk1 & Hi1 & Hna1 & Hnd1); wp_go).
  all: try (eapply wp_mono;
            [|apply preview_ready;
              first [assumption | apply keys_present_init
                    | by apply session_inv_init]]).
  all: try (intros r2 s2 tr2 (Hi2 & Hna2 & Hsame & Hdl)).
  all: simpl_state.
  all: split; [first [assumption | by apply session_inv_init]|].
  all: split;
    [first [ assumption
           | intros ? ?; discriminate
           | intros name Heq; injection Heq as ->; by destruct (Hna1 name) ]|].
  all: intros label data name mime Hin.
  all: rewrite ?in_app_iff in Hin; cbn [In] in Hin.
  all: try pose proof (no_download_in _ label data name mime Hnd1) as Hnot1.
  all: repeat match goal with
         | H : _ \/ _ |- _ => destruct H as [H|H]
         end; try done; try discriminate.
  all: destruct (Hdl _ _ _ _ Hin) as (Hset & Hbytes & Hname & -> & Hb).
  all: split; [done|]; split; [done|].
  all: intros Hreset; rewrite (Hsame Hreset); done.
Qed.

(** C10. In every session dictionary that executions of the script can
    produce, a set completion flag comes with stored report bytes and the
    canonical report name: the flag is only written right after both.  So an
    execution never fails on a missing or empty report when it renders the
    preview, and every download button it shows serves bytes under the
    canonical name, which are the bytes and the name stored in the session
    (unless the same execution goes on to reset the session). *)
Theorem report_present_when_finished (ss : gmap string Val) :
  reachable client ss ->
  session_inv ss /\
  forall (s : State P) (inp : Inputs),
    session_state s = ss ->
    wp (script client inp)
       (fun r (s1 : State P) (tr : list Event) =>
          (forall name, r <> Raise (AttributeError name)) /\
          (forall label data name mime,
             In (Ui (StDownloadButton label data name mime)) tr ->
             name = VStr REPORT_NAME /\
             (exists b, data = VBytes b) /\
             (reset_btn inp = false ->
              run_finished_set (session_state s1) = true /\
              session_state s1 !! "report_bytes" = Some data /\
              session_state s1 !! "report_name" = Some name))) s.
Proof.
  intros Hreach.
  assert (Hinv : session_inv ss).
  { induction Hreach as [|s inp Hreach IH]; [apply session_inv_empty|].
    exact (proj1 (proj1 (wp_run _ _ _) (script_ready inp s IH))). }
  split; [exact Hinv|].
  intros s inp <-. eapply wp_mono; [|by apply script_ready].
  intros r s1 tr (_ & Hna & Hdl). by split.
Qed.

End Completion.

Lemma report_present_when_finished_witness :
  let ss := session_state (script demo_client click_analyse fresh_state).1.2 in
  run_finished_set ss = true /\
  exists b,
    ss !! "report_bytes" = Some (VBytes b) /\
    ss !! "report_name" = Some (VStr REPORT_NAME).
Proof.
  split; [reflexivity|].
  exact (proj1 (report_present_when_finished demo_client _
                  (reachable_run demo_client fresh_state click_analyse
                     (reachable_new demo_client)))
               eq_refl).
Defined.

(** * Further properties of the script *)

Lemma strip_prefix_Some (p s r : string) :
  strip_prefix p s = Some r <-> s = p +:+ r.
Proof.
  revert s. induction p as [|a p IH]; intros s; cbn.
  - split; [by intros [= ->] | by intros ->].
  - destruct s as [|b s]; [split; discriminate|].
    destruct (Ascii.eqb a b) eqn:Hab.
    + apply Ascii.eqb_eq in Hab as ->. rewrite IH.
      split; [by intros -> | by intros [= ->]].
    + split; [discriminate|]. intros [= -> _].
      by rewrite Ascii.eqb_refl in Hab.
Qed.

Lemma alnum_run_split (s : string) :
  exists post, s = alnum_run s +:+ post /\ starts_alnum post = false.
Proof.
  induction s as [|c s (post & IH & Hpost)]; [by exists EmptyString|].
  cbn [alnum_run]. destruct (is_alnum c) eqn:Hc.
  - exists post. split; [|done]. by rewrite append_cons, <- IH.
  - exists (String c s). by split.
Qed.

Lemma match_here_Some (s m : string) :
  pattern_match_here s = Some m ->
  exists run post,
    s = m +:+ post /\ m = "file-" +:+ run /\ run <> EmptyString /\
    all_alnum run = true /\ starts_alnum post = false.
Proof.
  unfold pattern_match_here.
  destruct (strip_prefix "file-" s) as [rest|] eqn:Hrest; [|discriminate].
  apply strip_prefix_Some in Hrest as ->.
  pose proof (alnum_run_all_alnum rest) as Hall.
  destruct (alnum_run_split rest) as (post & Hsplit & Hpost).
  destruct (alnum_run rest) as [|c run] eqn:Hrun; [discriminate|].
  intros [= <-]. exists (String c run), post.
  split; [|done]. rewrite append_assoc. by rewrite <- Hsplit.
Qed.

Lemma match_here_None (s : string) :
  pattern_match_here s = None <-> ~ tag_at s EmptyString.
Proof.
  unfold pattern_match_here, tag_at. split.
  - intros Hnone (c & post & -> & Hc). revert Hnone.
    assert (Hs : strip_prefix "file-" (EmptyString +:+ "file-" +:+ String c post)
                 = Some (String c post)) by (by apply strip_prefix_Some).
    rewrite Hs.
    cbn [alnum_run]. by rewrite Hc.
  - intros Hno.
    destruct (strip_prefix "file-" s) as [rest|] eqn:Hrest; [|done].
    apply strip_prefix_Some in Hrest as ->.
    destruct rest as [|c rest]; [done|]. cbn [alnum_run].
    destruct (is_alnum c) eqn:Hc; [|done].
    destruct Hno. by exists c, rest.
Qed.

Lemma match_here_tag (s m : string) :
  pattern_match_here s = Some m -> tag_at s EmptyString.
Proof.
  intros Hm. destruct (pattern_match_here s) eqn:Hs; [|discriminate].
  destruct (match_here_None s) as [_ Hnone].
  unfold pattern_match_here in Hs.
  destruct (strip_prefix "file-" s) as [rest|] eqn:Hrest; [|discriminate].
  apply strip_prefix_Some in Hrest as ->.
  destruct rest as [|c rest]; [discriminate|]. cbn [alnum_run] in Hs.
  destruct (is_alnum c) eqn:Hc; [|discriminate]. by exists c, rest.
Qed.

Lemma has_token_cons (c : ascii) (s : string) :
  has_token (String c s) <-> tag_at (String c s) EmptyString \/ has_token s.
Proof.
  split.
  - intros ([|c' pre] & c1 & post & Hs & Hc1).
    + left. by exists c1, post.
    + right. injection Hs as -> ->. exists pre. by exists c1, post.
  - intros [Hhere|(pre & c1 & post & -> & Hc1)]; [by exists EmptyString|].
    exists (String c pre). by exists c1, post.
Qed.

Lemma pattern_search_None (s : string) :
  pattern_search s = None <-> ~ has_token s.
Proof.
  induction s as [|c s IH]; cbn [pattern_search].
  - split; [|done]. by intros _ ([|c pre] & c1 & post & Hs & _).
  - rewrite has_token_cons.
    destruct (pattern_match_here (String c s)) as [m|] eqn:Hm.
    + split; [discriminate|]. intros Hno. exfalso.
      apply Hno. left. by apply (match_here_tag _ m).
    + apply match_here_None in Hm. rewrite IH. tauto.
Qed.

Lemma pattern_search_Some (s m : string) :
  pattern_search s = Some m ->
  exists pre run post,
    s = pre +:+ m +:+ post /\ m = "file-" +:+ run /\ run <> EmptyString /\
    all_alnum run = true /\ starts_alnum post = false /\
    forall pre', tag_at s pre' -> String.length pre <= String.length pre'.
Proof.
  induction s as [|c s IH]; cbn [pattern_search].
  - cbn. discriminate.
  - destruct (pattern_match_here (String c s)) as [m'|] eqn:Hm.
    + intros [= ->].
      destruct (match_here_Some _ _ Hm) as (run & post & Hs & Hrun).
      exists EmptyString, run, post. split; [exact Hs|].
      destruct Hrun as (? & ? & ? & ?). repeat split; try done.
      intros pre' _. cbn. lia.
    + intros Hsearch.
      destruct (IH Hsearch) as (pre & run & post & -> & Hrun & Hne & Hall & Hpost & Hleft).
      exists (String c pre), run, post. repeat split; try done.
      intros [|c' pre'] Htag.
      * by apply match_here_None in Hm.
      * destruct Htag as (c1 & post1 & Hs & Hc1). injection Hs as -> Hs.
        cbn [String.length]. apply le_n_S, Hleft. by exists c1, post1.
Qed.

(** ** The fallback over the listed messages *)

(** X2. The fallback of the extraction (lines 193-198) finds nothing
    exactly when no listed message has, in its string form, the tag
    followed by an ASCII letter or digit. *)
Theorem fallback_none_iff_no_token (msgs : list Message) :
  fallback_search msgs = None
  <-> forall msg, In msg msgs -> ~ has_token (msg_str msg).
Proof.
  induction msgs as [|msg rest IH]; cbn [fallback_search].
  - split; [by intros _ msg []|done].
  - destruct (pattern_search (msg_str msg)) as [m|] eqn:Hm.
    + split; [discriminate|]. intros Hno. exfalso.
      apply (Hno msg (or_introl eq_refl)).
      destruct (pattern_search_Some _ _ Hm)
        as (pre & [|c run] & post & Hs & -> & Hne & Hall & _); [done|].
      exists pre, c, (run +:+ post). split.
      * by rewrite Hs, append_assoc.
      * cbn in Hall. by destruct (is_alnum c).
    + apply pattern_search_None in Hm. rewrite IH. split.
      * intros Hrest msg' [<-|Hin]; [done | by apply Hrest].
      * intros Hall msg' Hin. apply Hall. by right.
Qed.

(** X3. A token returned by the fallback is a piece of the string form of
    a listed message, every message before it holding no match; it is the
    tag followed by a non-empty run of letters and digits that cannot be
    extended to the right (the pattern is greedy), and no match starts
    further left in that message (the search is leftmost). *)
Theorem fallback_token_position (msgs : list Message) (m : string) :
  fallback_search msgs = Some m ->
  exists msgs1 msg msgs2 pre run post,
    msgs = msgs1 ++ msg :: msgs2 /\
    Forall (fun msg' => ~ has_token (msg_str msg')) msgs1 /\
    msg_str msg = pre +:+ m +:+ post /\
    m = "file-" +:+ run /\ run <> EmptyString /\ all_alnum run = true /\
    starts_alnum post = false /\
    forall pre', tag_at (msg_str msg) pre' ->
                 String.length pre <= String.length pre'.
Proof.
  induction msgs as [|msg rest IH]; cbn [fallback_search]; [discriminate|].
  destruct (pattern_search (msg_str msg)) as [m'|] eqn:Hm.
  - intros [= ->].
    destruct (pattern_search_Some _ _ Hm) as (pre & run & post & Hshape).
    exists [], msg, rest, pre, run, post. by split; [|split].
  - intros Hrest.
    destruct (IH Hrest)
      as (msgs1 & msg' & msgs2 & pre & run & post & -> & Hnone & Hshape).
    exists (msg :: msgs1), msg', msgs2, pre, run, post.
    split; [done|]. split; [|done].
    constructor; [by apply pattern_search_None | done].
Qed.

Lemma fallback_token_position_witness :
  exists msgs1 msg msgs2 pre run post,
    demo_messages = msgs1 ++ msg :: msgs2 /\
    Forall (fun msg' => ~ has_token (msg_str msg')) msgs1 /\
    msg_str msg = pre +:+ "file-Txt9" +:+ post /\
    "file-Txt9" = "file-" +:+ run /\ run <> EmptyString /\ all_alnum run = true /\
    starts_alnum post = false /\
    forall pre', tag_at (msg_str msg) pre' ->
                 String.length pre <= String.length pre'.
Proof. apply (fallback_token_position demo_messages "file-Txt9"). reflexivity. Defined.

(** ** Markdown file names *)

Lemma endswith_iff (s suffix : string) :
  endswith s suffix = true <-> exists stem, s = stem +:+ suffix.
Proof.
  induction s as [|c s IH]; cbn [endswith].
  - rewrite orb_false_r, String.eqb_eq. split.
    + intros <-. by exists EmptyString.
    + intros ([|c stem] & Hs); [done | discriminate].
  - rewrite orb_true_iff, String.eqb_eq, IH. split.
    + intros [<-|(stem & ->)]; [by exists EmptyString | by exists (String c stem)].
    + intros ([|c' stem] & Hs); [by left|].
      right. injection Hs as -> ->. by exists stem.
Qed.

(** X4. Line 190 accepts a file object exactly when it has a filename that
    is some stem, possibly empty, followed by [.md], in that letter case. *)
Theorem md_filename_iff (file_obj : FileObject) :
  has_md_filename file_obj = true
  <-> exists stem, filename file_obj = Some (stem +:+ ".md").
Proof.
  unfold has_md_filename. destruct (filename file_obj) as [name|].
  - rewrite endswith_iff. split.
    + intros (stem & ->). by exists stem.
    + intros (stem & [= ->]). by exists stem.
  - split; [discriminate | by intros (stem & ?)].
Qed.

(** ** The initialisation of the session keys *)

Lemma init_present_noop (ss : gmap string Val) :
  keys_present ss -> foldl init_key ss SESSION_KEYS = ss.
Proof.
  intros Hkeys. apply map_eq. intros k. rewrite init_keys_lookup.
  destruct (decide (k ∈ SESSION_KEYS)) as [Hk|]; [|done].
  by destruct (Hkeys k Hk) as [v ->].
Qed.

Lemma with_session_same {P} (s : State P) : with_session (session_state s) s = s.
Proof. by destruct s. Qed.

Section Initialisation.
Context {P : Type}.

(** X1. The initialisation loop (lines 94-102) ends normally and has no
    observable effect; it keeps every value the session already holds,
    gives [None] to the missing ones of the five session keys and creates no
    other key; running it again changes nothing. *)
Theorem session_init_fills_missing_keys (s : State P) :
  wp init_session_state
     (fun r (s1 : State P) (tr : list Event) =>
        r = Return tt /\ tr = [] /\
        provider s1 = provider s /\ resource_cache s1 = resource_cache s /\
        (forall k v, session_state s !! k = Some v ->
                     session_state s1 !! k = Some v) /\
        (forall k, session_state s !! k = None ->
                   session_state s1 !! k
                   = if decide (k ∈ SESSION_KEYS) then Some VNone else None) /\
        init_session_state s1 = (Return tt, s1, [])) s.
Proof.
  apply wp_init_session_state. cbn [provider resource_cache session_state with_session].
  repeat split.
  - intros k v Hk. rewrite init_keys_lookup, Hk. by destruct (decide _).
  - intros k Hk. by rewrite init_keys_lookup, Hk.
  - unfold init_session_state. cbn [session_state with_session].
    rewrite (init_present_noop (foldl init_key _ _)) by apply keys_present_init.
    reflexivity.
Qed.

End Initialisation.

(** ** The lookups of the extraction *)

Lemma requests_app (tr1 tr2 : list Event) :
  requests (tr1 ++ tr2) = requests tr1 ++ requests tr2.
Proof. apply omap_app. Qed.

Lemma attachment_ids_cons (att : Attachment) (rest : list Attachment) :
  attachment_ids (att :: rest)
  = match att_file_id att with
    | Some id => if String.eqb id EmptyString then attachment_ids rest
                 else id :: attachment_ids rest
    | None => attachment_ids rest
    end.
Proof.
  unfold attachment_ids. cbn [omap list_omap].
  destruct (att_file_id att) as [id|]; [|done].
  by destruct (String.eqb id EmptyString).
Qed.

Lemma attachment_ids_nonempty (atts : list Attachment) (id : string) :
  In id (attachment_ids atts) -> id <> EmptyString.
Proof.
  induction atts as [|att rest IH]; [done|]. rewrite attachment_ids_cons.
  destruct (att_file_id att) as [id'|]; [|done].
  destruct (String.eqb id' EmptyString) eqn:Hid; [done|].
  intros [<-|Hin]; [|by apply IH]. intros ->. discriminate Hid.
Qed.

Lemma attachment_file_ids_nonempty (msgs : list Message) (id : string) :
  In id (attachment_file_ids msgs) -> id <> EmptyString.
Proof.
  unfold attachment_file_ids. rewrite in_flat_map.
  intros (msg & _ & Hin). unfold message_file_ids in Hin.
  destruct (attachments msg) as [atts|]; [|done].
  by apply (attachment_ids_nonempty atts).
Qed.

Lemma fallback_search_nonempty (msgs : list Message) (id : string) :
  fallback_search msgs = Some id -> id <> EmptyString.
Proof.
  induction msgs as [|msg rest IH]; cbn [fallback_search]; [discriminate|].
  destruct (pattern_search (msg_str msg)) as [m|] eqn:Hm; [|exact IH].
  intros [= <-]. destruct (pattern_search_shape _ _ Hm) as (run & -> & _).
  discriminate.
Qed.

Lemma prefix_last_In {A} (ids all : list A) (x : A) :
  ids `prefix_of` all -> last ids = Some x -> In x all.
Proof.
  intros [k ->] Hlast. apply last_Some in Hlast as [l' ->].
  rewrite !in_app_iff. left. right. by left.
Qed.

Section Lookups.
Context {P : Type} (client : Client P).

Lemma scan_attachments_lookups atts :
  forall s,
    wp (scan_attachments client atts)
       (fun r _ tr => exists ids, scan_post client (attachment_ids atts) r tr ids) s.
Proof.
  induction atts as [|att rest IH]; intros s; cbn [scan_attachments].
  - apply wp_ret. exists []. by repeat split.
  - rewrite attachment_ids_cons.
    destruct (att_file_id att) as [id|]; [|by apply IH].
    destruct (String.eqb id EmptyString); [by apply IH|].
    apply wp_bind, wp_call; cbv beta iota.
    + intros file_obj p Hc. destruct (has_md_filename file_obj) eqn:Hmd.
      * apply wp_ret. exists [id]. split; [by exists (attachment_ids rest)|].
        split; [done|]. split; [done|]. by exists (provider s), file_obj, p.
      * eapply wp_mono; [|apply IH].
        intros r s1 tr (ids & Hpre & Hreq & Hr). exists (id :: ids).
        split; [by apply prefix_cons|].
        split; [by rewrite requests_app, Hreq|].
        destruct r as [[id'|]|e]; [|by subst|done].
        destruct Hr as [Hlast Hacc]. split; [|done].
        by rewrite last_cons, Hlast.
    + intros msg p Hc. exists [id]. split; [by exists (attachment_ids rest)|].
      split; [done|]. by exists msg.
Qed.

Lemma scan_messages_lookups msgs :
  forall s,
    wp (scan_messages client msgs)
       (fun r _ tr =>
          exists ids, scan_post client (attachment_file_ids msgs) r tr ids) s.
Proof.
  induction msgs as [|msg rest IH]; intros s; cbn [scan_messages].
  - apply wp_ret. exists []. by repeat split.
  - change (attachment_file_ids (msg :: rest))
      with (message_file_ids msg ++ attachment_file_ids rest).
    apply wp_bind.
    assert (Hhere : wp match attachments msg with
                       | Some atts => scan_attachments client atts
                       | None => ret None
                       end
                       (fun r _ tr =>
                          exists ids,
                            scan_post client (message_file_ids msg) r tr ids) s).
    { unfold message_file_ids. destruct (attachments msg) as [atts|].
      - apply scan_attachments_lookups.
      - apply wp_ret. exists []. by repeat split. }
    eapply wp_mono; [|exact Hhere]. cbv beta.
    intros r s1 tr1 (ids1 & Hpre1 & Hreq1 & Hr1).
    destruct r as [[id|]|e].
    + apply wp_ret. exists ids1. rewrite app_nil_r.
      split; [by apply prefix_app_r | done].
    + eapply wp_mono; [|apply IH]. cbv beta.
      intros r2 s2 tr2 (ids2 & Hpre2 & Hreq2 & Hr2). subst ids1.
      exists (message_file_ids msg ++ ids2).
      split; [by apply prefix_app|].
      split; [by rewrite requests_app, Hreq1, Hreq2, map_app|].
      destruct r2 as [[id'|]|e]; [|by subst|done].
      destruct Hr2 as [Hlast Hacc]. split; [|done]. by rewrite last_app, Hlast.
    + exists ids1. split; [by apply prefix_app_r | done].
Qed.

(** The extraction, once the messages are listed. *)
Lemma extract_lookups (thread : Thread) (s : State P) (msgs : list Message)
    (p : P) :
  client (MessagesList (thread_id thread)) (provider s) = (Ok msgs, p) ->
  wp (_extract_md_file_id client thread)
     (fun r _ tr =>
        exists ids tr1,
          tr = Call (MessagesList (thread_id thread)) None :: tr1 /\
          match r with
          | Return (Some id) =>
              scan_post client (attachment_file_ids msgs) r tr1 ids \/
              (scan_post client (attachment_file_ids msgs) (Return None) tr1 ids /\
               fallback_search msgs = Some id)
          | Return None =>
              scan_post client (attachment_file_ids msgs) r tr1 ids /\
              fallback_search msgs = None
          | Raise _ => scan_post client (attachment_file_ids msgs) r tr1 ids
          end) s.
Proof.
  intros Hlist. unfold _extract_md_file_id.
  apply wp_bind. eapply wp_intro; [unfold call; by rewrite Hlist|].
  cbv beta iota. apply wp_bind.
  eapply wp_mono; [|apply scan_messages_lookups]. cbv beta.
  intros r s1 tr1 (ids & Hscan).
  destruct r as [[id|]|e]; cbv beta iota.
  - apply wp_ret. exists ids, tr1. rewrite app_nil_r. split; [done|]. by left.
  - apply wp_ret. exists ids, tr1. rewrite app_nil_r. split; [done|].
    destruct (fallback_search msgs) as [id|] eqn:Hfb; [by right | done].
  - by exists ids, tr1.
Qed.

(** X6. Once the messages are listed, an identifier returned by the
    extraction is never the empty string, and it is either an attachment of
    a listed message whose retrieved metadata named a Markdown file, or the
    token found by the fallback; the extraction returns nothing only when
    the fallback found nothing. *)
Theorem extract_result_provenance (thread : Thread) (s : State P)
    (msgs : list Message) (p : P) :
  client (MessagesList (thread_id thread)) (provider s) = (Ok msgs, p) ->
  wp (_extract_md_file_id client thread)
     (fun r _ _ =>
        match r with
        | Return (Some id) =>
            id <> EmptyString /\
            ((In id (attachment_file_ids msgs) /\ accepted_as_md client id) \/
             fallback_search msgs = Some id)
        | Return None => fallback_search msgs = None
        | Raise _ => True
        end) s.
Proof.
  intros Hlist.
  eapply wp_mono; [|by apply (extract_lookups thread s msgs p)]. cbv beta.
  intros r s1 tr (ids & tr1 & -> & Hr).
  destruct r as [[id|]|e]; [| |done].
  - destruct Hr as [(Hpre & _ & Hlast & Hacc)|[_ Hfb]].
    + pose proof (prefix_last_In _ _ _ Hpre Hlast) as Hin.
      split; [by apply (attachment_file_ids_nonempty msgs) | by left].
    + split; [by apply (fallback_search_nonempty msgs) | by right].
  - apply Hr.
Qed.

(** Whatever the provider answers, the extraction never returns the empty
    string. *)
Lemma extract_nonempty (thread : Thread) (s : State P) :
  wp (_extract_md_file_id client thread)
     (fun r _ _ => forall id, r = Return (Some id) -> id <> EmptyString) s.
Proof.
  destruct (client (MessagesList (thread_id thread)) (provider s))
    as [[msgs|msg] p] eqn:Hlist.
  - eapply wp_mono; [|by apply (extract_lookups thread s msgs p)]. cbv beta.
    intros r s1 tr (ids & tr1 & _ & Hr) id ->.
    destruct Hr as [(Hpre & _ & Hlast & _)|[_ Hfb]].
    + apply (attachment_file_ids_nonempty msgs).
      by apply (prefix_last_In ids).
    + by apply (fallback_search_nonempty msgs).
  - unfold _extract_md_file_id. apply wp_bind.
    eapply wp_intro; [unfold call; by rewrite Hlist|]. done.
Qed.

End Lookups.

(** ** The exact lookups of the extraction *)

Lemma through_first_app (f : string -> bool) (l1 l2 : list string) :
  through_first f (l1 ++ l2)
  = match List.find f l1 with
    | Some _ => through_first f l1
    | None => l1 ++ through_first f l2
    end.
Proof.
  induction l1 as [|x l1 IH]; [reflexivity|]. cbn.
  destruct (f x); [reflexivity|]. rewrite IH. by destruct (List.find f l1).
Qed.

Lemma through_first_none (f : string -> bool) (l : list string) :
  List.find f l = None -> through_first f l = l.
Proof.
  induction l as [|x l IH]; [reflexivity|]. cbn.
  destruct (f x); [discriminate|]. intros Hl. by rewrite IH.
Qed.

Section LookupTrace.
Context {P : Type} (client : Client P).

Lemma bind_trace {A B} (m : M P A) (k : A -> M P B) (s : State P) :
  (bind m k s).2
  = match (m s).1.1 with
    | Return a => (m s).2 ++ (k a (m s).1.2).2
    | Raise e => (m s).2
    end.
Proof.
  unfold bind. destruct (m s) as [[[a|e] s1] tr1]; [|reflexivity].
  cbn. by destruct (k a s1) as [[r2 s2] tr2].
Qed.

Lemma scan_attachments_trace (is_md : string -> bool) atts :
  (forall id, In id (attachment_ids atts) -> metadata_known client is_md id) ->
  forall s,
    (scan_attachments client atts s).2
    = retrievals (through_first is_md (attachment_ids atts)).
Proof.
  induction atts as [|att rest IH]; intros Hknown s; [reflexivity|].
  cbn [scan_attachments]. rewrite attachment_ids_cons in *.
  destruct (att_file_id att) as [id|]; [|by apply IH].
  destruct (String.eqb id EmptyString); [by apply IH|].
  rewrite bind_trace. unfold call at 1 2 3.
  destruct (Hknown id (or_introl eq_refl) (provider s))
    as (file_obj & p' & Hc & Hmd).
  rewrite Hc. cbn [fst snd through_first]. rewrite <- Hmd.
  destruct (has_md_filename file_obj); [reflexivity|].
  cbn [app retrievals map]. f_equal.
  apply IH. intros id' Hin. apply Hknown. by right.
Qed.

Lemma scan_messages_trace (is_md : string -> bool) msgs :
  (forall id, In id (attachment_file_ids msgs) -> metadata_known client is_md id) ->
  forall s,
    (scan_messages client msgs s).2
    = retrievals (through_first is_md (attachment_file_ids msgs)).
Proof.
  induction msgs as [|msg rest IH]; intros Hknown s; [reflexivity|].
  change (attachment_file_ids (msg :: rest))
    with (message_file_ids msg ++ attachment_file_ids rest) in *.
  assert (Hrest : forall s', (scan_messages client rest s').2
            = retrievals (through_first is_md (attachment_file_ids rest))).
  { apply IH. intros id Hin. apply Hknown, in_or_app. by right. }
  assert (Hhere : forall id, In id (message_file_ids msg) ->
                             metadata_known client is_md id).
  { intros id Hin. apply Hknown, in_or_app. by left. }
  cbn [scan_messages]. rewrite bind_trace, through_first_app.
  unfold message_file_ids in *.
  destruct (attachments msg) as [atts|].
  - rewrite (scan_attachments_result client is_md atts Hhere),
      (scan_attachments_trace is_md atts Hhere).
    destruct (List.find is_md (attachment_ids atts)) as [id|] eqn:Hfind.
    + cbn. by rewrite app_nil_r.
    + rewrite Hrest, (through_first_none _ _ Hfind).
      unfold retrievals. by rewrite map_app.
  - cbn. apply Hrest.
Qed.

(** X5. When the messages are listed and the retrievals succeed, the
    effects of the extraction are exactly the listing followed by the
    retrievals of the metadata of the attachments, in message order, up to
    and including the first one whose metadata names a Markdown file: one
    request per attachment that carries an identifier, none after the
    attachment that is returned, and all of them when none is accepted and
    the result comes from the pattern or is nothing. *)
Theorem extract_lookups_in_order (thread : Thread) (s : State P)
    (msgs : list Message) (p : P) (is_md : string -> bool) :
  client (MessagesList (thread_id thread)) (provider s) = (Ok msgs, p) ->
  (forall id, In id (attachment_file_ids msgs) ->
              metadata_known client is_md id) ->
  (_extract_md_file_id client thread s).2
  = Call (MessagesList (thread_id thread)) None
    :: retrievals (through_first is_md (attachment_file_ids msgs)).
Proof.
  intros Hlist Hknown. unfold _extract_md_file_id.
  rewrite bind_trace. unfold call at 1 2 3. rewrite Hlist. cbn [fst snd app].
  f_equal. rewrite bind_trace, (scan_messages_result client is_md msgs Hknown),
    (scan_messages_trace is_md msgs Hknown).
  destruct (List.find is_md (attachment_file_ids msgs)); cbn; by rewrite app_nil_r.
Qed.

End LookupTrace.

Lemma extract_lookups_in_order_witness :
  (_extract_md_file_id demo_client {| thread_id := "thread_1" |} fresh_state).2
  = [ Call (MessagesList "thread_1") None;
      Call (FilesRetrieve "file-Txt9") None;
      Call (FilesRetrieve "file-Md42") None ].
Proof.
  refine (extract_lookups_in_order demo_client {| thread_id := "thread_1" |}
            fresh_state demo_messages 1 (fun id => String.eqb id "file-Md42")
            _ _).
  - reflexivity.
  - intros id Hin p. exists (demo_metadata id), (S p). split; [reflexivity|].
    unfold has_md_filename, demo_metadata. cbn [filename].
    cbn in Hin. destruct Hin as [<-|[<-|[]]]; reflexivity.
Defined.

Lemma extract_result_provenance_witness :
  wp (_extract_md_file_id bare_client {| thread_id := "thread_1" |})
     (fun r _ _ =>
        match r with
        | Return (Some id) =>
            id <> EmptyString /\
            ((In id (attachment_file_ids bare_messages) /\
              accepted_as_md bare_client id) \/
             fallback_search bare_messages = Some id)
        | Return None => fallback_search bare_messages = None
        | Raise _ => True
        end) fresh_state.
Proof.
  apply (extract_result_provenance bare_client {| thread_id := "thread_1" |}
           fresh_state bare_messages 1).
  reflexivity.
Defined.

(** ** The steps of an analysis *)

Section Analysis.
Context {P : Type} (client : Client P).

Lemma wp_any {A} (m : M P A) (Q : Res A -> State P -> list Event -> Prop) s :
  (forall r s1 tr, Q r s1 tr) -> wp m Q s.
Proof. intros HQ. unfold wp. by destruct (m s) as [[r s1] tr]. Qed.

(** X7. In a run whose upload the provider answers with the handle [f]
    and whose step 2 it answers with the thread [t], the session holds the
    handle [f] and, if the thread was created, the identifier of [t],
    however the run goes on.  When the run reaches its end it returns [t]
    and has performed, in this order: the upload of the archive, the
    creation of a thread when the session held none and else the retrieval
    of the stored one, the attachment of [f] (and of no other file) to [t],
    the posting of the prompt as typed under the role [user] to [t], and
    the streamed run on [t] with the given assistant, between the two
    spinners and the success message, the only other effects being the
    pushes of the streamed text. *)
Theorem analysis_steps_in_order (zip : UploadedFile) (prompt : string)
    (a : Assistant) (s : State P) (v : Val) (f : FileObject) (t : Thread)
    (p p' : P) :
  session_state s !! "thread_id" = Some v ->
  client (FilesCreate zip "assistants") (provider s) = (Ok f, p) ->
  thread_step client v p = (Ok t, p') ->
  wp (run_analysis client zip prompt a)
     (fun r (s1 : State P) (tr : list Event) =>
        session_state s1 !! "file_id" = Some (VStr (file_id f)) /\
        session_state s1 !! "thread_id"
        = Some (if is_None v then VStr (thread_id t) else v) /\
        forall thread, r = Return thread ->
          thread = t /\
          exists pushes,
            tr = [ Ui (StSpinner "Uploading repository to OpenAI …");
                   Call (FilesCreate zip "assistants") None;
                   Call (if is_None v then ThreadsCreate
                         else ThreadsRetrieve v) None;
                   Call (ThreadsUpdate (thread_id t) [VStr (file_id f)]) None;
                   Call (MessagesCreate (thread_id t) "user" prompt) None;
                   Ui (StSpinner
                     "ThreatLens‑AI is analysing … this can take a few minutes") ]
                 ++ pushes ++
                 [ Call (RunsStream (thread_id t) (assistant_id a)
                                    "code_interpreter") None;
                   Ui (StSuccess "Analysis complete! Preparing report …") ] /\
            Forall (fun ev => is_sink ev = true) pushes) s.
Proof.
  intros Hv Hupload Hthread. unfold thread_step in Hthread.
  unfold run_analysis.
  wp_go; cbn [session_state with_session with_provider provider] in *.
  all: try congruence.
  all: simpl_state; try congruence.
  all: match goal with
       | H : is_None _ = _ |- _ => rewrite H in Hthread |- *
       end.
  all: try congruence.
  all: repeat match goal with
         | H1 : ?x = (Ok _, _), H2 : ?x = (Ok _, _) |- _ =>
             rewrite H1 in H2; injection H2 as <- <-
         end.
  all: split; [done|]; split; [done|].
  all: intros thread Heq; try discriminate Heq.
  all: injection Heq as <-; split; [done|].
  all: cbn [app]; rewrite ?app_nil_r.
  all: match goal with
       | H : Forall (fun ev => is_sink ev = true) ?out |- _ => exists out
       end.
  all: split; [by rewrite <- app_assoc | done].
Qed.

End Analysis.

Lemma analysis_steps_in_order_witness :
  wp (run_analysis demo_client demo_zip DEFAULT_PROMPT
        {| assistant_id := "asst_1" |})
     (fun r (s1 : State nat) (tr : list Event) =>
        session_state s1 !! "file_id" = Some (VStr "file-Zip1") /\
        session_state s1 !! "thread_id" = Some (VStr "thread_1") /\
        forall thread, r = Return thread ->
          thread = {| thread_id := "thread_1" |} /\
          exists pushes,
            tr = [ Ui (StSpinner "Uploading repository to OpenAI …");
                   Call (FilesCreate demo_zip "assistants") None;
                   Call (ThreadsRetrieve (VStr "thread_1")) None;
                   Call (ThreadsUpdate "thread_1" [VStr "file-Zip1"]) None;
                   Call (MessagesCreate "thread_1" "user" DEFAULT_PROMPT) None;
                   Ui (StSpinner
                     "ThreatLens‑AI is analysing … this can take a few minutes") ]
                 ++ pushes ++
                 [ Call (RunsStream "thread_1" "asst_1" "code_interpreter") None;
                   Ui (StSuccess "Analysis complete! Preparing report …") ] /\
            Forall (fun ev => is_sink ev = true) pushes)
     finished_state.
Proof.
  apply (analysis_steps_in_order demo_client demo_zip DEFAULT_PROMPT
           {| assistant_id := "asst_1" |} finished_state (VStr "thread_1")
           {| file_id := "file-Zip1"; filename := Some "demo.zip" |}
           {| thread_id := "thread_1" |} 8 9);
    reflexivity.
Defined.

(** ** The report fetched by an analysis *)

Section Report.
Context {P : Type} (client : Client P).

(** X8. The main flow never ends normally without a report identifier (the
    name [md_file_id], once bound, is never [None] below line 204).  When it
    ends normally, the identifier is not empty, the last effect is the
    successful request of the content of that file, and the session holds
    the bytes the provider answered, the canonical name and the completion
    flag. *)
Theorem main_flow_stores_fetched_report (zip : UploadedFile) (prompt : string)
    (a : Assistant) (s : State P) :
  wp (main_flow client zip prompt a)
     (fun r (s1 : State P) (tr : list Event) =>
        r <> Return None /\
        forall id, r = Return (Some id) ->
          id <> EmptyString /\
          exists content tr0 p0,
            tr = tr0 ++ [Call (FilesContent id) None] /\
            client (FilesContent id) p0 = (Ok content, provider s1) /\
            session_state s1 !! "report_bytes" = Some (VBytes content) /\
            session_state s1 !! "report_name" = Some (VStr REPORT_NAME) /\
            session_state s1 !! "run_finished" = Some (VBool true)) s.
Proof.
  unfold main_flow. apply wp_bind. apply wp_any. intros [thread|e] s1 tr1;
    [|split; [discriminate | intros ? ?; discriminate]].
  unfold locate_report. apply wp_bind.
  eapply wp_mono; [|apply extract_nonempty]. cbv beta.
  intros [[id|]|e] s2 tr2 Hne; wp_go; simpl_state.
  all: split; [discriminate|]; intros id' Hid'; try discriminate Hid'.
  injection Hid' as <-. split; [by apply Hne|].
  eexists _, (tr1 ++ tr2), _. split; [|by split].
  by rewrite !app_nil_r, !app_assoc.
Qed.

End Report.

(** ** Rendering the page *)

Section Rendering.
Context {P : Type} (client : Client P).

(** X9. With the assistant cached and the session keys present, an
    execution that neither runs an analysis nor resets issues no provider
    request and leaves the provider, the cache and the session exactly as
    they were; when no report is recorded it shows nothing at all and ends
    normally. *)
Theorem rerender_changes_nothing (inp : Inputs) (s : State P) (a : Assistant) :
  resource_cache s = Some a ->
  keys_present (session_state s) ->
  run_btn inp = false \/ zip_file inp = None ->
  reset_btn inp = false ->
  wp (script client inp)
     (fun r (s1 : State P) (tr : list Event) =>
        s1 = s /\ requests tr = [] /\
        (run_finished_set (session_state s) = false ->
         r = Return tt /\ tr = [])) s.
Proof.
  intros Hcache Hkeys Hrun Hreset. unfold script. apply wp_bind.
  eapply wp_intro;
    [unfold _get_or_create_assistant, cache_resource; by rewrite Hcache|].
  cbv beta iota. apply wp_bind, wp_init_session_state.
  rewrite init_present_noop, with_session_same by done.
  apply wp_bind.
  assert (Hskip : wp match run_btn inp, zip_file inp with
                     | true, Some zip =>
                         let* id := main_flow client zip (user_prompt inp) a in
                         ret (Some id)
                     | _, _ => ret None
                     end
                     (fun r s1 tr => r = Return None /\ s1 = s /\ tr = []) s).
  { destruct Hrun as [-> | ->]; [|destruct (run_btn inp)]; by apply wp_ret. }
  eapply wp_mono; [|exact Hskip]. cbv beta.
  intros r s1 tr (-> & -> & ->).
  unfold preview_and_download, decode, run_finished_set. rewrite Hreset.
  wp_go; simpl_state.
  all: split; [done|]; split; [done|].
  all: intros Hset; try done.
  all: try match goal with
         | H : session_state _ !! "run_finished" = Some _ |- _ =>
             rewrite H in Hset; congruence
         end.
  destruct (Hkeys "run_finished") as [v Hv];
    [unfold SESSION_KEYS; set_solver | congruence].
Qed.

(** X10. A stored report that is not well-formed UTF-8 blocks the page:
    every execution that runs no analysis ends with [UnicodeDecodeError]
    right after the preview header, whatever is clicked, so that neither the
    download button nor the reset button is ever reached, and it leaves the
    flag and the bytes in place, so the next execution ends the same way. *)
Theorem ill_formed_report_blocks_page (inp : Inputs) (s : State P)
    (a : Assistant) (v : Val) (b : bytes) :
  resource_cache s = Some a ->
  run_btn inp = false \/ zip_file inp = None ->
  session_state s !! "run_finished" = Some v ->
  truthy v = true ->
  session_state s !! "report_bytes" = Some (VBytes b) ->
  decode_utf8 b = None ->
  wp (script client inp)
     (fun r (s1 : State P) (tr : list Event) =>
        r = Raise UnicodeDecodeError /\
        tr = [Ui (StHeader "📄 Report Preview")] /\
        provider s1 = provider s /\
        resource_cache s1 = Some a /\
        session_state s1 !! "run_finished" = Some v /\
        session_state s1 !! "report_bytes" = Some (VBytes b)) s.
Proof.
  intros Hcache Hrun Hflag Htruthy Hbytes Hdecode. unfold script. apply wp_bind.
  eapply wp_intro;
    [unfold _get_or_create_assistant, cache_resource; by rewrite Hcache|].
  cbv beta iota. apply wp_bind, wp_init_session_state.
  assert (Hinit : forall k w, session_state s !! k = Some w ->
            foldl init_key (session_state s) SESSION_KEYS !! k = Some w).
  { intros k w Hk. rewrite init_keys_lookup, Hk. by destruct (decide _). }
  apply Hinit in Hflag, Hbytes.
  set (s0 := with_session _ s).
  apply wp_bind.
  assert (Hskip : wp match run_btn inp, zip_file inp with
                     | true, Some zip =>
                         let* id := main_flow client zip (user_prompt inp) a in
                         ret (Some id)
                     | _, _ => ret None
                     end
                     (fun r s1 tr => r = Return None /\ s1 = s0 /\ tr = []) s0).
  { destruct Hrun as [-> | ->]; [|destruct (run_btn inp)]; by apply wp_ret. }
  eapply wp_mono; [|exact Hskip]. cbv beta.
  intros r s1 tr (-> & -> & ->).
  unfold preview_and_download, decode. subst s0.
  wp_go; cbn [session_state with_session] in *; try congruence.
  all: simpl_state; try congruence.
  all: by repeat split.
Qed.

(** X14. The text shown in the preview is the decoding of the stored
    report, byte for byte, and a download button of the same execution
    serves those same bytes. *)
Theorem preview_shows_stored_bytes (inp : Inputs)
    (md_file_id : option (option string)) (s : State P) :
  wp (preview_and_download client inp md_file_id)
     (fun _ (s1 : State P) (tr : list Event) =>
        forall label text,
          In (Ui (StExpanderMarkdown label text)) tr ->
          exists b,
            session_state s !! "report_bytes" = Some (VBytes b) /\
            String.list_byte_of_string text = b /\
            forall label' data name mime,
              In (Ui (StDownloadButton label' data name mime)) tr ->
              data = VBytes b) s.
Proof.
  unfold preview_and_download, decode, decode_utf8, reset_session.
  wp_go; simpl_state.
  all: intros label text Hin; cbn [app In] in Hin.
  all: repeat (destruct Hin as [Hin|Hin]); try discriminate Hin; try done.
  all: injection Hin as <- <-.
  all: match goal with
       | H : (if ?c then _ else _) = Some _ |- _ =>
           destruct c; [injection H as <- | discriminate H]
       end.
  all: eexists; split; [eassumption|]; split;
    [apply String.list_byte_of_string_of_list_byte|].
  all: intros label' data name mime Hin; cbn [app In] in Hin.
  all: repeat (destruct Hin as [Hin|Hin]); try discriminate Hin; try done.
  all: by injection Hin as <- <- <- <-.
Qed.

End Rendering.

Lemma keys_present_finished : keys_present finished_session.
Proof.
  intros k Hk. unfold SESSION_KEYS in Hk.
  repeat (apply elem_of_cons in Hk as [->|Hk]); [..|by apply elem_of_nil in Hk].
  all: by eexists.
Defined.

Lemma rerender_changes_nothing_witness :
  wp (script demo_client no_click)
     (fun r (s1 : State nat) (tr : list Event) =>
        s1 = finished_state /\ requests tr = [] /\
        (run_finished_set (session_state finished_state) = false ->
         r = Return tt /\ tr = [])) finished_state.
Proof.
  apply (rerender_changes_nothing demo_client no_click finished_state
           {| assistant_id := "asst_1" |}).
  - reflexivity.
  - exact keys_present_finished.
  - by left.
  - reflexivity.
Defined.

Lemma ill_formed_report_blocks_page_witness :
  wp (script demo_client click_reset)
     (fun r (s1 : State nat) (tr : list Event) =>
        r = Raise UnicodeDecodeError /\
        tr = [Ui (StHeader "📄 Report Preview")] /\
        provider s1 = provider garbled_state /\
        resource_cache s1 = Some {| assistant_id := "asst_1" |} /\
        session_state s1 !! "run_finished" = Some (VBool true) /\
        session_state s1 !! "report_bytes" = Some (VBytes garbled_report))
     garbled_state.
Proof.
  apply (ill_formed_report_blocks_page demo_client click_reset garbled_state
           {| assistant_id := "asst_1" |} (VBool true) garbled_report).
  - reflexivity.
  - by left.
  - reflexivity.
  - reflexivity.
  - reflexivity.
  - reflexivity.
Defined.

(** ** The clean-up of the reset *)

Ltac failed_call_absurd :=
  match goal with
  | H : Forall (fun ev => is_failed_call ev = false) _ |- _ =>
      solve [ exfalso; clear -H; cbn [app] in H;
              repeat match type of H with
                | Forall _ (_ :: _) =>
                    let Hev := fresh "Hev" in
                    apply Forall_cons in H as [Hev H];
                    cbn [is_failed_call] in Hev; try discriminate Hev
                end ]
  end.

Section CleanUp.
Context {P : Type} (client : Client P).

(** X11. The three deletions of the reset share one [try]: whatever the
    provider does and whether or not [md_file_id] is bound, the first
    deletion that fails ends the clean-up; the only effect after it is the
    print of its error, so the deletions that were still to come are never
    requested. *)
Theorem cleanup_ends_at_first_failure (md_file_id : option (option string))
    (s : State P) :
  wp (reset_session client md_file_id)
     (fun _ (s1 : State P) (tr : list Event) =>
        forall msg rest,
          after_first_failure tr = Some (msg, rest) ->
          rest = [Print ("Cleanup error: " +:+ msg)]) s.
Proof.
  unfold reset_session. wp_go.
  all: intros msg' rest Hfail; cbn [app after_first_failure] in Hfail.
  all: try discriminate Hfail.
  all: by injection Hfail as <- <-.
Qed.

(** X12. In an execution where [md_file_id] is bound, a clean-up in which
    no request fails requests exactly: the deletion of the archive when the
    stored handle is truthy, then of the report file when [md_file_id] is
    truthy, then of the thread when the stored identifier is truthy, in that
    order, and prints nothing. *)
Theorem cleanup_requests_when_bound (md : option string) (s : State P)
    (fid tid : Val) :
  session_state s !! "file_id" = Some fid ->
  session_state s !! "thread_id" = Some tid ->
  wp (reset_session client (Some md))
     (fun _ (s1 : State P) (tr : list Event) =>
        Forall (fun ev => is_failed_call ev = false) tr ->
        tr = (if truthy fid then [Call (FilesDelete fid) None] else [])
             ++ (if str_truthy md
                 then [Call (FilesDelete (VStr (or_empty md))) None] else [])
             ++ (if truthy tid then [Call (ThreadsDelete tid) None] else []))
     s.
Proof.
  intros Hfid Htid. unfold reset_session.
  wp_go; cbn [session_state with_session with_provider] in *; try congruence.
  all: simpl_state.
  all: intros Hok; try failed_call_absurd.
  all: repeat match goal with
         | H : truthy _ = _ |- _ => rewrite H; clear H
         | H : str_truthy _ = _ |- _ => rewrite H; clear H
         end.
  all: reflexivity.
Qed.

End CleanUp.

Lemma cleanup_requests_when_bound_witness :
  wp (reset_session demo_client (Some (Some "file-Md42")))
     (fun _ (s1 : State nat) (tr : list Event) =>
        Forall (fun ev => is_failed_call ev = false) tr ->
        tr = [ Call (FilesDelete (VStr "file-Zip1")) None;
               Call (FilesDelete (VStr "file-Md42")) None;
               Call (ThreadsDelete (VStr "thread_1")) None ]) finished_state.
Proof.
  apply (cleanup_requests_when_bound demo_client (Some "file-Md42")
           finished_state (VStr "file-Zip1") (VStr "thread_1"));
    reflexivity.
Defined.

(** ** How an execution ends *)

Section Outcomes.
Context {P : Type} (client : Client P).

Lemma main_flow_outcomes zip prompt a (s : State P) :
  keys_present (session_state s) ->
  wp (main_flow client zip prompt a)
     (fun r (s1 : State P) (tr : list Event) =>
        keys_present (session_state s1) /\
        match r with
        | Return _ => True
        | Raise (APIError _) => True
        | Raise StopException =>
            exists tr0, tr = tr0 ++ [Ui (StError NOT_FOUND_MESSAGE)]
        | Raise _ => False
        end) s.
Proof.
  intros Hkeys.
  assert (Hthread := Hkeys "thread_id" ltac:(unfold SESSION_KEYS; set_solver)).
  unfold main_flow, run_analysis, locate_report.
  wp_go; use_request_outcome; simpl_state.
  all: try match goal with
         | H : _ !! "thread_id" = None |- _ =>
             rewrite H in Hthread; by destruct Hthread
         end.
  all: try congruence.
  all: split; [ready_solver|]; try done.
  all: rewrite (app_nil_r [Ui (StError NOT_FOUND_MESSAGE)]), (app_assoc _ tr).
  all: by eexists.
Qed.

Lemma preview_outcomes inp md (s : State P) :
  keys_present (session_state s) ->
  wp (preview_and_download client inp md)
     (fun r (s1 : State P) (tr : list Event) =>
        match r with
        | Return _ => True
        | Raise RerunException => reset_btn inp = true /\ session_state s1 = ∅
        | Raise UnicodeDecodeError =>
            run_finished_set (session_state s1) = true
        | Raise (AttributeError name) => name = "decode"
        | Raise _ => False
        end) s.
Proof.
  intros Hkeys.
  assert (Hk : forall k, k ∈ SESSION_KEYS -> session_state s !! k <> None).
  { intros k Hin Hnone. destruct (Hkeys k Hin) as [v Hv]. congruence. }
  assert (Hk1 := Hk "run_finished" ltac:(unfold SESSION_KEYS; set_solver)).
  assert (Hk2 := Hk "report_bytes" ltac:(unfold SESSION_KEYS; set_solver)).
  assert (Hk3 := Hk "report_name" ltac:(unfold SESSION_KEYS; set_solver)).
  unfold preview_and_download, decode, reset_session.
  wp_go; simpl_state; try done.
  all: rewrite ?delete_all_keys_empty; try done.
  all: unfold run_finished_set.
  all: by repeat match goal with
         | H : session_state _ !! _ = Some _ |- _ => rewrite H; clear H
         end.
Qed.

(** The endings of an execution, one by one. *)
Lemma script_endings (inp : Inputs) (s : State P) :
  wp (script client inp)
     (fun r (s1 : State P) (tr : list Event) =>
        match r with
        | Return _ => True
        | Raise (APIError _) => True
        | Raise StopException =>
            run_btn inp = true /\
            exists tr0, tr = tr0 ++ [Ui (StError NOT_FOUND_MESSAGE)]
        | Raise RerunException => reset_btn inp = true /\ session_state s1 = ∅
        | Raise UnicodeDecodeError =>
            run_finished_set (session_state s1) = true
        | Raise (AttributeError name) => name = "decode"
        | Raise (NameError _) => False
        end) s.
Proof.
  unfold script. wp_go.
  all: try (eapply wp_mono; [|apply main_flow_outcomes, keys_present_init]).
  all: try (intros [id|e] s1 tr1 (Hk1 & Hout1); wp_go).
  all: try (eapply wp_mono;
            [|apply preview_outcomes;
              first [assumption | apply keys_present_init]]).
  all: try (intros r2 s2 tr2 Hout2).
  all: try done.
  all: try (by destruct r2 as [?|[]]).
  all: destruct e; try done.
  all: destruct Hout1 as [tr0 ->]; split; [done|].
  all: rewrite !app_assoc; by eexists.
Qed.

(** X13. An execution of the script never ends with a [NameError] (the
    one of the clean-up is always caught), nor with the [AttributeError] of
    a missing session key (the initialisation precedes every read).  It is
    stopped only in a run and right after the not-found message; it ends
    with the rerun request only on a reset click and with the session
    emptied; and it fails at the decoding of the stored report only with
    the completion flag set. *)
Theorem script_outcomes (inp : Inputs) (s : State P) :
  wp (script client inp)
     (fun r (s1 : State P) (tr : list Event) =>
        (forall name, r <> Raise (NameError name)) /\
        (forall k, k ∈ SESSION_KEYS -> r <> Raise (AttributeError k)) /\
        (r = Raise StopException ->
         run_btn inp = true /\
         exists tr0, tr = tr0 ++ [Ui (StError NOT_FOUND_MESSAGE)]) /\
        (r = Raise RerunException ->
         reset_btn inp = true /\ session_state s1 = ∅) /\
        (r = Raise UnicodeDecodeError ->
         run_finished_set (session_state s1) = true)) s.
Proof.
  eapply wp_mono; [|apply script_endings]. cbv beta.
  intros r s1 tr Hr. split; [|split; [|split; [|split]]].
  - intros name ->. exact Hr.
  - intros k Hk ->. subst k. unfold SESSION_KEYS in Hk. set_solver.
  - by intros ->.
  - by intros ->.
  - by intros ->.
Qed.

End Outcomes.

(** ** Identifiers kept across a failure *)

Section Partial.
Context {P : Type} (client : Client P).

(** X15. Once the upload has succeeded and a thread has been created, the
    session holds the new archive handle and the identifier of the new
    thread however the run goes on: a failure of a later step, or the
    controlled stop of a run without report, leaves both in the session, so
    a later run reuses that thread. *)
Theorem created_thread_survives_failure (zip : UploadedFile) (prompt : string)
    (a : Assistant) (s : State P) (f : FileObject) (t : Thread) (p p' : P) :
  session_state s !! "thread_id" = Some VNone ->
  client (FilesCreate zip "assistants") (provider s) = (Ok f, p) ->
  client ThreadsCreate p = (Ok t, p') ->
  wp (main_flow client zip prompt a)
     (fun _ (s1 : State P) (tr : list Event) =>
        session_state s1 !! "thread_id" = Some (VStr (thread_id t)) /\
        session_state s1 !! "file_id" = Some (VStr (file_id f))) s.
Proof.
  intros Hnone Hupload Hcreate. unfold main_flow, run_analysis, locate_report.
  wp_go; cbn [session_state with_session with_provider provider] in *.
  all: try congruence.
  all: simpl_state; try congruence.
  all: repeat match goal with
         | H : (Ok _, _) = (Ok _, _) |- _ => injection H as <- <-
         | H1 : ?x = (Ok _, _), H2 : ?x = (Ok _, _) |- _ =>
             rewrite H1 in H2
         end.
  all: try done.
Qed.

End Partial.

Lemma created_thread_survives_failure_witness :
  wp (main_flow bare_client demo_zip DEFAULT_PROMPT
        {| assistant_id := "asst_1" |})
     (fun r (s1 : State nat) (tr : list Event) =>
        session_state s1 !! "thread_id" = Some (VStr "thread_1") /\
        session_state s1 !! "file_id" = Some (VStr "file-Zip1"))
     (with_session (foldl init_key ∅ SESSION_KEYS) fresh_state).
Proof.
  apply (created_thread_survives_failure bare_client demo_zip DEFAULT_PROMPT
           {| assistant_id := "asst_1" |}
           (with_session (foldl init_key ∅ SESSION_KEYS) fresh_state)
           {| file_id := "file-Zip1"; filename := Some "demo.zip" |}
           {| thread_id := "thread_1" |} 1 2);
    reflexivity.
Defined.

(** ** The kinds of the session values *)

Lemma session_typed_empty : session_typed ∅.
Proof. intros k v Hk. by rewrite lookup_empty in Hk. Qed.

Lemma session_typed_insert (ss : gmap string Val) (key : string) (v : Val) :
  key ∈ SESSION_KEYS -> key_holds key v = true ->
  session_typed ss -> session_typed (<[key:=v]> ss).
Proof.
  intros Hkey Hv Hss k w. destruct (decide (key = k)) as [->|Hne].
  - rewrite lookup_insert_eq. by intros [= <-].
  - rewrite lookup_insert_ne by done. apply Hss.
Qed.

Lemma session_typed_init (ss : gmap string Val) :
  session_typed ss -> session_typed (foldl init_key ss SESSION_KEYS).
Proof.
  intros Hss k v. rewrite init_keys_lookup.
  destruct (decide (k ∈ SESSION_KEYS)) as [Hk|Hk]; [|apply Hss].
  destruct (ss !! k) as [w|] eqn:Hw; cbn; intros [= <-]; [by apply Hss|done].
Qed.

Ltac typed_solver :=
  repeat first
    [ assumption
    | apply keys_present_insert
    | apply session_typed_insert;
      [unfold SESSION_KEYS; set_solver | reflexivity |] ].

Section Kinds.
Context {P : Type} (client : Client P).

Lemma main_flow_typed zip prompt a (s : State P) :
  keys_present (session_state s) ->
  session_typed (session_state s) ->
  wp (main_flow client zip prompt a)
     (fun _ (s1 : State P) (tr : list Event) =>
        keys_present (session_state s1) /\ session_typed (session_state s1)) s.
Proof.
  intros Hkeys Htyped. unfold main_flow, run_analysis, locate_report.
  wp_go; simpl_state.
  all: split; typed_solver.
Qed.

Lemma preview_typed inp md (s : State P) :
  keys_present (session_state s) ->
  session_typed (session_state s) ->
  wp (preview_and_download client inp md)
     (fun _ (s1 : State P) (tr : list Event) =>
        session_typed (session_state s1) /\
        (session_state s1 = ∅ \/ keys_present (session_state s1))) s.
Proof.
  intros Hkeys Htyped. unfold preview_and_download, decode, reset_session.
  wp_go; simpl_state.
  all: rewrite ?delete_all_keys_empty.
  all: split; [first [assumption | apply session_typed_empty]|].
  all: first [by right | by left].
Qed.

Lemma script_typed (inp : Inputs) (s : State P) :
  session_typed (session_state s) ->
  session_state s = ∅ \/ keys_present (session_state s) ->
  wp (script client inp)
     (fun _ (s1 : State P) (tr : list Event) =>
        session_typed (session_state s1) /\
        (session_state s1 = ∅ \/ keys_present (session_state s1))) s.
Proof.
  intros Htyped Hshape. unfold script. wp_go.
  all: try (eapply wp_mono;
            [|apply main_flow_typed;
              [apply keys_present_init | by apply session_typed_init]]).
  all: try (intros [id|e] s1 tr1 (Hk1 & Ht1); wp_go).
  all: try (eapply wp_mono;
            [|apply preview_typed;
              first [assumption | apply keys_present_init
                    | by apply session_typed_init]]).
  all: try (intros r2 s2 tr2 (Ht2 & Hs2)).
  all: simpl_state.
  all: split; [first [assumption | by apply session_typed_init]|].
  all: first [assumption | by right].
Qed.

(** X16. In every session dictionary that executions of the script can
    produce, no key beside the five session keys is present and each key
    holds [None] or a value of its kind: a string under the thread and
    archive keys, [True] (never [False]) under the completion flag, bytes
    under the report key and the canonical name under the name key.  The
    dictionary is empty, as in a new session or after a reset, or else
    holds all five keys. *)
Theorem reachable_session_typed (ss : gmap string Val) :
  reachable client ss ->
  session_typed ss /\ (ss = ∅ \/ keys_present ss).
Proof.
  induction 1 as [|s inp Hreach [IHt IHs]].
  - split; [apply session_typed_empty | by left].
  - exact (proj1 (wp_run _ _ _) (script_typed inp s IHt IHs)).
Qed.

End Kinds.

Lemma reachable_session_typed_witness :
  let ss := session_state (script demo_client click_analyse fresh_state).1.2 in
  session_typed ss /\ (ss = ∅ \/ keys_present ss).
Proof.
  exact (reachable_session_typed demo_client _
           (reachable_run demo_client fresh_state click_analyse
              (reachable_new demo_client))).
Defined.
